(** * FetchHackerNews: the posting parser and the fetch step

    A shallow embedding of [src/events/fetch_hackernews_step.py]:
    [parse_hn_comment], which turns one Hacker News comment into a job
    posting, and [handler], the event step that fetches one "Who's Hiring"
    thread, parses its first comments, emits one event per posting and
    records a status entry in the state store.

    Python [str] values are modelled by [string]; an [ascii] stands for the
    code point of the same number.  The HTTP client, the event bus, the
    logger, the state store and the clock are the step's collaborators: the
    first, the second and the last are oracles of the run ([env]), the
    others are components of the explicit [state] the step threads.

    The items have the types of the Hacker News API: [id] and [time] are
    integers, [text] is a string, [deleted] a boolean, [kids] a list of
    integers.  The exceptions of a run are those [except Exception] catches:
    a request, the check of its status and the decoding of its body may
    raise, and so may [context.emit]; the logger and [context.state.set] do
    not. *)

From Stdlib Require Import ZArith Ascii String List Bool Lia DecimalString.
From Stdlib Require Import DecimalPos DecimalZ.
From stdpp Require Import base option list strings gmap.

Local Open Scope string_scope.
Local Open Scope list_scope.

(** ** Python strings *)

(** Truth value of a [str]: the empty string is false. *)
Definition truthy (s : string) : bool :=
  match s with
  | EmptyString => false
  | String _ _ => true
  end.

(** [s[:n]] for [0 <= n]. *)
Fixpoint slice_to (n : nat) (s : string) : string :=
  match n, s with
  | S n', String a s' => String a (slice_to n' s')
  | _, _ => EmptyString
  end.

(** [str.isspace] on one character: the code points below 256 that
    [str.strip()] removes (TAB..CR, FS..US, SPACE, NEL, NBSP). *)
Definition is_space (a : ascii) : bool :=
  let n := nat_of_ascii a in
  ((9 <=? n)%nat && (n <=? 13)%nat) || ((28 <=? n)%nat && (n <=? 32)%nat)
  || (n =? 133)%nat || (n =? 160)%nat.

Fixpoint lstrip (s : string) : string :=
  match s with
  | EmptyString => EmptyString
  | String a s' => if is_space a then lstrip s' else s
  end.

Fixpoint rstrip (s : string) : string :=
  match s with
  | EmptyString => EmptyString
  | String a s' =>
      match rstrip s' with
      | EmptyString => if is_space a then EmptyString else String a EmptyString
      | r => String a r
      end
  end.

(** [s.strip()] *)
Definition py_strip (s : string) : string := rstrip (lstrip s).

(** [s.split(sep)] for a non-empty [sep]: the fields between the leftmost,
    non-overlapping occurrences of [sep].  [split_go] returns the field that
    is being read and the fields after it; [skip] counts the characters of
    an occurrence of [sep] that are still to be passed over. *)
Fixpoint split_go (sep : string) (skip : nat) (s : string) : string * list string :=
  match s with
  | EmptyString => (EmptyString, [])
  | String a s' =>
      match skip with
      | S k => split_go sep k s'
      | O =>
          if String.prefix sep s
          then (EmptyString,
                let (f, fs) := split_go sep (String.length sep - 1) s' in f :: fs)
          else let (f, fs) := split_go sep 0 s' in (String a f, fs)
      end
  end.

Definition py_split (sep s : string) : list string :=
  let (f, fs) := split_go sep 0 s in f :: fs.

(** ** The regular expression [<[^>]+>] *)

(** Number of characters up to and including the first [>] of [s]. *)
Fixpoint upto_gt (s : string) : option nat :=
  match s with
  | EmptyString => None
  | String a s' => if Ascii.eqb a ">" then Some 1 else S <$> upto_gt s'
  end.

(** Length of the match of [[^>]+>] at the head of [s]: at least one
    character other than [>], then the first [>]. *)
Definition tag_match (s : string) : option nat :=
  match s with
  | EmptyString => None
  | String a s' => if Ascii.eqb a ">" then None else S <$> upto_gt s'
  end.

(** [re.sub(r"<[^>]+>", repl, s)]: scanning from the left, every match is
    replaced by [repl] and the scan resumes after it; a character at which
    no match starts is kept.  [skip] counts the characters of the current
    match that are still to be dropped. *)
Fixpoint re_sub_go (repl : string) (skip : nat) (s : string) : string :=
  match s with
  | EmptyString => EmptyString
  | String a s' =>
      match skip with
      | S k => re_sub_go repl k s'
      | O =>
          if Ascii.eqb a "<"
          then match tag_match s' with
               | Some n => repl +:+ re_sub_go repl n s'
               | None => String a (re_sub_go repl 0 s')
               end
          else String a (re_sub_go repl 0 s')
      end
  end.

Definition re_sub_tag (repl s : string) : string := re_sub_go repl 0 s.

(** ** Records *)

(** A decoded Hacker News item, the [dict] that [resp.json()] returns.  A
    field is [None] when its key is absent. *)
Module Item.
Record t := mk {
  id : option Z;
  text : option string;
  time : option Z;
  deleted : option bool;
  kids : option (list Z)
}.
End Item.

(** The posting [dict] built by [parse_hn_comment]. *)
Module Job.
Record t := mk {
  id : string;
  company : string;
  title : string;
  location : string;
  description : string;
  url : string;
  posted_at : Z
}.
End Job.

(** A reading of [datetime.now(timezone.utc)], by the two observations the
    code makes of it. *)
Record instant := {
  timestamp : Z;      (* int(now.timestamp()) *)
  isoformat : string  (* now.isoformat() *)
}.

(** [str(n)] and [f"{n}"] of an [int]: its decimal numeral. *)
Definition str_int (z : Z) : string := NilZero.string_of_int (Z.to_int z).

(** [str(x)] and [f"{x}"] of the value of [comment.get("id")], which is
    [None] when the key is absent. *)
Definition py_str (x : option Z) : string :=
  match x with
  | None => "None"
  | Some z => str_int z
  end.

(** ** parse_hn_comment *)

(** The header fields: [parts] of the first line of [text]. *)
Definition first_line (text : string) : string :=
  py_strip (re_sub_tag "" (hd "" (py_split "<p>" text))).

Definition header_parts (text : string) : list string :=
  map py_strip (py_split "|" (first_line text)).

Definition parse_hn_comment (now : instant) (comment : Item.t) : option Job.t :=
  let text := default "" (Item.text comment) in
  if negb (truthy text) then None
  else
    let clean_text := py_strip (re_sub_tag " " text) in
    let lines := py_split "<p>" text in
    match lines with
    | [] => None
    | line0 :: _ =>
        let first_line := py_strip (re_sub_tag "" line0) in
        let parts := map py_strip (py_split "|" first_line) in
        if (2 <=? length parts)%nat then
          let company :=
            if truthy (nth 0 parts "") then nth 0 parts "" else "Unknown Company" in
          let title :=
            if (1 <? length parts)%nat && truthy (nth 1 parts "")
            then nth 1 parts "" else "Software Engineer" in
          let location :=
            if (2 <? length parts)%nat && truthy (nth 2 parts "")
            then nth 2 parts "" else "Remote" in
          Some {| Job.id := py_str (Item.id comment);
                  Job.company := slice_to 100 company;
                  Job.title := slice_to 200 title;
                  Job.location := slice_to 100 location;
                  Job.description := slice_to 500 clean_text;
                  Job.url := "https://news.ycombinator.com/item?id="
                             +:+ py_str (Item.id comment);
                  Job.posted_at := default (timestamp now) (Item.time comment) |}
        else None
    end.

(** ** The step and its collaborators *)

Module Input.
Record t := mk {
  source : option string;
  manual : option bool
}.
End Input.

(** The event passed to [context.emit]. *)
Module Event.
Record t := mk {
  topic : string;
  source : string;
  rawJob : Job.t
}.
End Event.

(** The record stored by [context.state.set]. *)
Module Status.
Record t := mk {
  lastFetch : string;
  jobCount : nat;
  status : string;
  error : option string
}.
End Status.

Inductive level := Info | Warn | Error.

Inductive log_value :=
  | VInt (z : Z)
  | VStr (s : string).

Record log_entry := {
  lvl : level;
  msg : string;
  data : list (string * log_value)
}.

(** What one [client.get(url)] followed by [raise_for_status()] and
    [json()] comes to: an exception with its message, or the decoded body
    ([None] for JSON [null]). *)
Inductive response :=
  | Raised (err : string)
  | Json (body : option Item.t).

(** The oracles of one run: the HTTP server, the event bus (the message of
    the exception [context.emit] raises, if it raises) and the clock (the
    reading of the [k]-th call of [datetime.now]). *)
Record env := {
  http_get : string -> response;
  emit_raises : Event.t -> option string;
  clock : nat -> instant
}.

Definition run_env (srv : string -> response)
    (bus : Event.t -> option string) (clk : nat -> instant) : env :=
  {| http_get := srv; emit_raises := bus; clock := clk |}.

(** What the step acts on: the requests sent, the log, the events emitted,
    the state store, and the number of clock readings taken. *)
Record state := {
  requests : list string;
  logger : list log_entry;
  emitted : list Event.t;
  store : gmap (string * string) Status.t;
  ticks : nat
}.

Definition send (u : string) (st : state) : state :=
  {| requests := requests st ++ [u]; logger := logger st;
     emitted := emitted st; store := store st; ticks := ticks st |}.

Definition log (l : level) (m : string) (d : list (string * log_value))
    (st : state) : state :=
  {| requests := requests st;
     logger := logger st ++ [{| lvl := l; msg := m; data := d |}];
     emitted := emitted st; store := store st; ticks := ticks st |}.

Definition emit (ev : Event.t) (st : state) : state :=
  {| requests := requests st; logger := logger st;
     emitted := emitted st ++ [ev]; store := store st; ticks := ticks st |}.

Definition state_set (ns key : string) (v : Status.t) (st : state) : state :=
  {| requests := requests st; logger := logger st;
     emitted := emitted st; store := <[(ns, key) := v]> (store st);
     ticks := ticks st |}.

Definition tick (st : state) : state :=
  {| requests := requests st; logger := logger st;
     emitted := emitted st; store := store st; ticks := S (ticks st) |}.

Definition WHO_IS_HIRING_THREADS : list Z := [42575537; 42057092; 41709301]%Z.

Definition item_url (item_id : Z) : string :=
  "https://hacker-news.firebaseio.com/v0/item/" +:+ str_int item_id +:+ ".json".

(** [comment.get("text") and not comment.get("deleted")] *)
Definition postable (comment : Item.t) : bool :=
  truthy (default "" (Item.text comment))
  && negb (default false (Item.deleted comment)).

Definition normalize_job (job_data : Job.t) : Event.t :=
  {| Event.topic := "normalize-job";
     Event.source := "hackernews";
     Event.rawJob := job_data |}.

(** The entry the [except] clause of the comment loop writes. *)
Definition comment_warning (comment_id : Z) (err : string) : log_entry :=
  {| lvl := Warn;
     msg := "Failed to fetch comment " +:+ str_int comment_id;
     data := [("error", VStr err)] |}.

(** One turn of the loop over [comment_ids]; the second component is
    [jobs_found].  The clock is read when [parse_hn_comment] builds its
    result. *)
Definition fetch_comment (e : env) (acc : state * nat) (comment_id : Z)
    : state * nat :=
  let (st, jobs_found) := acc in
  let st := send (item_url comment_id) st in
  let failed err st :=
    (log Warn ("Failed to fetch comment " +:+ str_int comment_id)
       [("error", VStr err)] st, jobs_found) in
  match http_get e (item_url comment_id) with
  | Raised err => failed err st
  | Json None => (st, jobs_found)
  | Json (Some comment) =>
      if postable comment then
        match parse_hn_comment (clock e (ticks st)) comment with
        | Some job_data =>
            let st := tick st in
            match emit_raises e (normalize_job job_data) with
            | Some err => failed err st
            | None => (emit (normalize_job job_data) st, S jobs_found)
            end
        | None => (st, jobs_found)
        end
      else (st, jobs_found)
  end.

(** The entry written after the loop over [comment_ids]. *)
Definition thread_done (thread_id : Z) (acc : state * nat) : state * nat :=
  let (st, jobs_found) := acc in
  (log Info "Processed HackerNews thread"
     [("thread_id", VInt thread_id);
      ("jobs_found", VInt (Z.of_nat jobs_found))] st, jobs_found).

(** One turn of the loop over the thread ids. *)
Definition fetch_thread (e : env) (acc : state * nat) (thread_id : Z)
    : state * nat :=
  let (st, jobs_found) := acc in
  let st := send (item_url thread_id) st in
  match http_get e (item_url thread_id) with
  | Raised err =>
      (log Error "Failed to fetch HN thread"
         [("thread_id", VInt thread_id); ("error", VStr err)] st, jobs_found)
  | Json thread =>
      match thread ≫= Item.kids with
      | None =>
          (log Warn "Thread has no comments" [("thread_id", VInt thread_id)] st,
           jobs_found)
      | Some kids =>
          let st := log Info "Processing HackerNews thread"
                      [("thread_id", VInt thread_id);
                       ("comment_count", VInt (Z.of_nat (length kids)))] st in
          let comment_ids := take 30 kids in
          thread_done thread_id
            (foldl (fetch_comment e) (st, jobs_found) comment_ids)
      end
  end.

(** The end of the run: the status record and the closing log entry. *)
Definition update_metadata (e : env) (acc : state * nat) : state :=
  let (st, jobs_found) := acc in
  let now := clock e (ticks st) in
  let st :=
    state_set "sources" "hackernews"
      {| Status.lastFetch := isoformat now;
         Status.jobCount := jobs_found;
         Status.status := if (0 <? jobs_found)%nat then "success" else "error";
         Status.error :=
           if (0 <? jobs_found)%nat then None else Some "No jobs found" |}
      (tick st) in
  log Info "HackerNews fetch completed"
    [("total_jobs", VInt (Z.of_nat jobs_found))] st.

Definition handler (e : env) (input_data : Input.t) (st : state) : state :=
  let source := default "" (Input.source input_data) in
  if negb (String.eqb source "hackernews") && negb (String.eqb source "all")
  then st
  else
    let st := log Info "Fetching from HackerNews Who's Hiring" [] st in
    update_metadata e
      (foldl (fetch_thread e) (st, 0) (take 1 WHO_IS_HIRING_THREADS)).

(** ** Vocabulary of the statements *)

(** The trigger is for this step. *)
Definition for_hackernews (input_data : Input.t) : Prop :=
  Input.source input_data = Some "hackernews"
  \/ Input.source input_data = Some "all".

(** The key of the status record. *)
Definition status_key : string * string := ("sources", "hackernews").

(** The thread the step reads: the head of [WHO_IS_HIRING_THREADS]. *)
Definition latest_thread : Z := 42575537.

(** The comments a run reads: the first 30 children of the thread, when
    the request for the thread returns an item with children. *)
Definition comment_ids (e : env) (thread_id : Z) : list Z :=
  match http_get e (item_url thread_id) with
  | Json (Some thread) => take 30 (default [] (Item.kids thread))
  | _ => []
  end.

(** The state in which the loop over [comment_ids] starts, in a run from
    [st] whose thread has the children [kids]. *)
Definition comments_start (st : state) (kids : list Z) : state :=
  log Info "Processing HackerNews thread"
    [("thread_id", VInt latest_thread);
     ("comment_count", VInt (Z.of_nat (length kids)))]
    (send (item_url latest_thread)
       (log Info "Fetching from HackerNews Who's Hiring" [] st)).

(** The turn of the loop for [comment_id], begun in [st], fails with the
    message [err]: the request raises, or [context.emit] does. *)
Inductive comment_failure (e : env) (st : state) (comment_id : Z)
    (err : string) : Prop :=
  | request_fails :
      http_get e (item_url comment_id) = Raised err ->
      comment_failure e st comment_id err
  | emit_fails (comment : Item.t) (job_data : Job.t) :
      http_get e (item_url comment_id) = Json (Some comment) ->
      postable comment = true ->
      parse_hn_comment (clock e (ticks st)) comment = Some job_data ->
      emit_raises e (normalize_job job_data) = Some err ->
      comment_failure e st comment_id err.

(** An event without the time of its posting. *)
Definition erase_time (ev : Event.t) : Event.t :=
  let r := Event.rawJob ev in
  {| Event.topic := Event.topic ev;
     Event.source := Event.source ev;
     Event.rawJob :=
       {| Job.id := Job.id r; Job.company := Job.company r;
          Job.title := Job.title r; Job.location := Job.location r;
          Job.description := Job.description r; Job.url := Job.url r;
          Job.posted_at := 0 |} |}.

(** Two stages of the loops that differ at most in the times of the
    postings they have emitted. *)
Definition same_up_to_time (a1 a2 : state * nat) : Prop :=
  requests a1.1 = requests a2.1
  /\ logger a1.1 = logger a2.1
  /\ store a1.1 = store a2.1
  /\ ticks a1.1 = ticks a2.1
  /\ a1.2 = a2.2
  /\ map erase_time (emitted a1.1) = map erase_time (emitted a2.1).

(** [st'] is [st] after the requests [reqs] and the events [evs], with
    more log entries and the same store. *)
Record grows (st st' : state) (reqs : list string) (evs : list Event.t)
    : Prop := {
  grows_requests : requests st' = requests st ++ reqs;
  grows_emitted : emitted st' = emitted st ++ evs;
  grows_logger : exists l, logger st' = logger st ++ l;
  grows_store : store st' = store st
}.

(** A state in which nothing has happened yet. *)
Definition idle : state :=
  {| requests := []; logger := []; emitted := []; store := ∅; ticks := 0 |}.

Definition trigger (src : string) : Input.t := Input.mk (Some src) None.

(** Occurrences of the character [a] in [s]. *)
Fixpoint count_char (a : ascii) (s : string) : nat :=
  match s with
  | EmptyString => 0
  | String b s' => (if Ascii.eqb b a then 1 else 0) + count_char a s'
  end.

(** The header fields that are not blank. *)
Definition nonblank_parts (text : string) : list string :=
  filter (fun p => truthy p = true) (header_parts text).

(** A comment that carries only an id and a text. *)
Definition comment_of (n : Z) (t : string) : Item.t :=
  Item.mk (Some n) (Some t) None None None.

Definition noon : instant :=
  {| timestamp := 1735732800; isoformat := "2025-01-01T12:00:00+00:00" |}.

Definition acme_text : string :=
  "Acme Corp | Backend Engineer | Remote | We build things</p>".

Definition acme_job (i : option Z) (posted : Z) : Job.t :=
  {| Job.id := py_str i;
     Job.company := "Acme Corp";
     Job.title := "Backend Engineer";
     Job.location := "Remote";
     Job.description := "Acme Corp | Backend Engineer | Remote | We build things";
     Job.url := "https://news.ycombinator.com/item?id=" +:+ py_str i;
     Job.posted_at := posted |}.

(** A comment with a blank title and markup in its location, and its
    posting when it carries no time and the clock reads [noon]. *)
Definition initech_comment : Item.t :=
  comment_of 7 "Initech |  | <i>Austin</i> , TX<p>We ship TPS reports.".

Definition initech_job : Job.t :=
  {| Job.id := "7";
     Job.company := "Initech";
     Job.title := "Software Engineer";
     Job.location := "Austin , TX";
     Job.description := "Initech |  |  Austin  , TX We ship TPS reports.";
     Job.url := "https://news.ycombinator.com/item?id=7";
     Job.posted_at := 1735732800 |}.

(** [n] copies of the character [a]. *)
Fixpoint replicate_char (n : nat) (a : ascii) : string :=
  match n with
  | O => EmptyString
  | S n' => String a (replicate_char n' a)
  end.

(** A header of two fields followed by filler: 600 characters in all. *)
Definition long_text : string := "Initech | QA " +:+ replicate_char 587 "x".

Definition long_comment : Item.t := comment_of 8 long_text.

Definition long_job : Job.t :=
  {| Job.id := "8";
     Job.company := "Initech";
     Job.title := "QA " +:+ replicate_char 197 "x";
     Job.location := "Remote";
     Job.description := "Initech | QA " +:+ replicate_char 487 "x";
     Job.url := "https://news.ycombinator.com/item?id=8";
     Job.posted_at := 1735732800 |}.

Definition evening : instant :=
  {| timestamp := 1735758000; isoformat := "2025-01-01T19:00:00+00:00" |}.

(** A server whose thread has three children: the second request fails,
    the others return a comment without a time. *)
Definition demo_server (u : string) : response :=
  if String.eqb u (item_url latest_thread) then
    Json (Some (Item.mk (Some latest_thread) None (Some 1735689600%Z) None
                  (Some [101; 102; 103]%Z)))
  else if String.eqb u (item_url 101) then Json (Some (comment_of 101 acme_text))
  else if String.eqb u (item_url 102) then Raised "ReadTimeout"
  else if String.eqb u (item_url 103) then Json (Some initech_comment)
  else Raised "404 Not Found".

(** A run against [demo_server] in which every clock reading is [now] and
    the event bus accepts every event. *)
Definition demo_env (now : instant) : env :=
  run_env demo_server (fun _ => None) (fun _ => now).

(** ** Vocabulary of the further properties *)

(** The [config] of the step, by the entries the event bus reads. *)
Module Config.
Record t := mk {
  name : string;
  type : string;
  subscribes : list string;
  emits : list string;
  flows : list string
}.
End Config.

Definition config : Config.t :=
  {| Config.name := "FetchHackerNews";
     Config.type := "event";
     Config.subscribes := ["fetch-jobs-trigger"];
     Config.emits := ["normalize-job"];
     Config.flows := ["job-aggregation"] |}.

(** No match of [<[^>]+>] starts anywhere in [s]. *)
Fixpoint tag_free (s : string) : Prop :=
  match s with
  | EmptyString => True
  | String a s' => (a = "<"%char -> tag_match s' = None) /\ tag_free s'
  end.

(** [s] is empty or starts with a character that is not white space. *)
Definition starts_trimmed (s : string) : Prop :=
  match s with
  | EmptyString => True
  | String a _ => is_space a = false
  end.

(** The event [ev] is the posting of the comment [comment_id]: the request
    for it returned a comment with a text that is not deleted, the parser
    accepted it at some reading of the clock, and the bus took the event. *)
Definition posted_from (e : env) (comment_id : Z) (ev : Event.t) : Prop :=
  exists comment t k,
    http_get e (item_url comment_id) = Json (Some comment)
    /\ Item.text comment = Some t /\ t <> ""
    /\ Item.deleted comment <> Some true
    /\ parse_hn_comment (clock e k) comment = Some (Event.rawJob ev)
    /\ ev = normalize_job (Event.rawJob ev)
    /\ emit_raises e ev = None.

(** The turn of the loop for [comment_id] cannot fail or skip: the request
    returns a comment with a text that is not deleted, and at every reading
    of the clock the parser accepts it and the bus takes its event. *)
Definition comment_succeeds (e : env) (comment_id : Z) : Prop :=
  exists comment,
    http_get e (item_url comment_id) = Json (Some comment)
    /\ postable comment = true
    /\ forall k, exists job_data,
         parse_hn_comment (clock e k) comment = Some job_data
         /\ emit_raises e (normalize_job job_data) = None.

(** The posting a comment gives when the clock reads [now], if it gives
    one: what the body of the comment loop passes to [context.emit]. *)
Definition candidate (e : env) (now : instant) (comment_id : Z)
    : option Event.t :=
  match http_get e (item_url comment_id) with
  | Json (Some comment) =>
      if postable comment
      then normalize_job <$> parse_hn_comment now comment
      else None
  | _ => None
  end.

(** The warning a comment gives when its request raises. *)
Definition request_warning (e : env) (comment_id : Z) : option log_entry :=
  match http_get e (item_url comment_id) with
  | Raised err => Some (comment_warning comment_id err)
  | Json _ => None
  end.

(** The log entries that open and close a run over [kids] with [n] jobs. *)
Definition opening_entries (kids : list Z) : list log_entry :=
  [ {| lvl := Info; msg := "Fetching from HackerNews Who's Hiring"; data := [] |};
    {| lvl := Info; msg := "Processing HackerNews thread";
       data := [("thread_id", VInt latest_thread);
                ("comment_count", VInt (Z.of_nat (length kids)))] |} ].

Definition closing_entries (n : nat) : list log_entry :=
  [ {| lvl := Info; msg := "Processed HackerNews thread";
       data := [("thread_id", VInt latest_thread);
                ("jobs_found", VInt (Z.of_nat n))] |};
    {| lvl := Info; msg := "HackerNews fetch completed";
       data := [("total_jobs", VInt (Z.of_nat n))] |} ].

(** The status record of a run that found nothing, written at [now]. *)
Definition no_jobs_status (now : instant) : Status.t :=
  {| Status.lastFetch := isoformat now;
     Status.jobCount := 0;
     Status.status := "error";
     Status.error := Some "No jobs found" |}.

(** ** Strings: lengths, slices, fields *)

Lemma truthy_true_iff (s : string) : truthy s = true <-> s <> "".
Proof. destruct s; simpl; split; congruence. Qed.

Lemma slice_to_length (n : nat) (s : string) :
  String.length (slice_to n s) = Nat.min n (String.length s).
Proof.
  revert s; induction n as [|n IH]; intros [|a s]; simpl; auto.
Qed.

Lemma slice_to_short (n : nat) (s : string) :
  (String.length s <= n)%nat -> slice_to n s = s.
Proof.
  revert s; induction n as [|n IH]; intros [|a s]; simpl; intros H;
    try reflexivity; try lia.
  f_equal. apply IH. lia.
Qed.

Lemma slice_to_truthy (n : nat) (s : string) :
  truthy s = true -> truthy (slice_to (S n) s) = true.
Proof. destruct s; simpl; auto. Qed.

Lemma prefix_bar (a : ascii) (s : string) :
  String.prefix "|" (String a s) = Ascii.eqb a "|".
Proof.
  change (String.prefix "|" (String a s))
    with (if ascii_dec "|" a then String.prefix "" s else false).
  destruct (ascii_dec "|" a) as [<-|Hne].
  - destruct s; reflexivity.
  - destruct (Ascii.eqb_spec a "|") as [->|_]; [congruence|reflexivity].
Qed.

Lemma split_go_bar_length (s : string) :
  length (snd (split_go "|" 0 s)) = count_char "|" s.
Proof.
  induction s as [|a s IH]; [reflexivity|].
  cbn [split_go count_char]. rewrite prefix_bar.
  change (String.length "|" - 1)%nat with 0%nat.
  destruct (Ascii.eqb a "|"), (split_go "|" 0 s) as [f fs]; simpl in *; lia.
Qed.

(** Splitting on [|] gives one field more than there are [|]. *)
Lemma py_split_bar_length (s : string) :
  length (py_split "|" s) = S (count_char "|" s).
Proof.
  unfold py_split. pose proof (split_go_bar_length s) as H.
  destruct (split_go "|" 0 s); simpl in *. lia.
Qed.

Lemma header_parts_length (text : string) :
  length (header_parts text) = S (count_char "|" (first_line text)).
Proof. unfold header_parts. rewrite length_map. apply py_split_bar_length. Qed.

Lemma py_split_hd (sep s : string) :
  exists fs, py_split sep s = hd "" (py_split sep s) :: fs.
Proof. unfold py_split. destruct (split_go sep 0 s) as [f fs]. eauto. Qed.

(** The functions above on the inputs that tell their cases apart. *)
Example py_split_paragraphs :
  py_split "<p>" "a<p><p>b<p<p>" = ["a"; ""; "b<p"; ""].
Proof. reflexivity. Qed.

Example py_split_leftmost : py_split "aa" "aaaxaaaa" = [""; "ax"; ""; ""].
Proof. reflexivity. Qed.

Example re_sub_tag_cases : re_sub_tag "_" "x<a><>b<<c>d<e" = "x_<>b_d<e".
Proof. reflexivity. Qed.

Example py_strip_both_ends :
  py_strip (String "009" " a b  ") = "a b".
Proof. reflexivity. Qed.

(** ** parse_hn_comment: what it accepts and what it builds *)

(** The posting of an accepted comment, field by field, over the header
    fields of its text. *)
Lemma parse_some_inv (now : instant) (c : Item.t) (r : Job.t) :
  parse_hn_comment now c = Some r ->
  exists t, Item.text c = Some t /\ truthy t = true /\
    let parts := header_parts t in
    (2 <= length parts)%nat /\
    r = {| Job.id := py_str (Item.id c);
           Job.company :=
             slice_to 100 (if truthy (nth 0 parts "") then nth 0 parts ""
                           else "Unknown Company");
           Job.title :=
             slice_to 200 (if (1 <? length parts)%nat && truthy (nth 1 parts "")
                           then nth 1 parts "" else "Software Engineer");
           Job.location :=
             slice_to 100 (if (2 <? length parts)%nat && truthy (nth 2 parts "")
                           then nth 2 parts "" else "Remote");
           Job.description := slice_to 500 (py_strip (re_sub_tag " " t));
           Job.url := "https://news.ycombinator.com/item?id="
                      +:+ py_str (Item.id c);
           Job.posted_at := default (timestamp now) (Item.time c) |}.
Proof.
  unfold parse_hn_comment.
  destruct (Item.text c) as [t|]; cbn [default from_option id truthy negb]; [|discriminate].
  destruct (truthy t) eqn:Ht; cbn [negb]; [|discriminate].
  unfold header_parts, first_line.
  destruct (py_split_hd "<p>" t) as [fs Hfs].
  set (line0 := hd "" (py_split "<p>" t)) in *. rewrite Hfs.
  set (parts := map py_strip _).
  destruct (2 <=? length parts)%nat eqn:Hlen; [|discriminate].
  intros [= <-]. exists t. repeat split; auto.
  apply Nat.leb_le in Hlen. exact Hlen.
Qed.

Lemma parse_none_inv (now : instant) (c : Item.t) :
  parse_hn_comment now c = None <->
  truthy (default "" (Item.text c)) = false
  \/ (length (header_parts (default "" (Item.text c))) < 2)%nat.
Proof.
  unfold parse_hn_comment. set (t := default "" (Item.text c)).
  destruct (truthy t) eqn:Ht; cbn [negb]; [|tauto].
  unfold header_parts, first_line.
  destruct (py_split_hd "<p>" t) as [fs Hfs].
  set (line0 := hd "" (py_split "<p>" t)) in *. rewrite Hfs.
  set (parts := map py_strip _).
  destruct (2 <=? length parts)%nat eqn:Hlen.
  - apply Nat.leb_le in Hlen. split; [intros [=]|]. intros [|]; [discriminate|lia].
  - apply Nat.leb_gt in Hlen. split; auto.
Qed.

(** Acceptance does not look at the clock, and the clock only fills in a
    missing [time]. *)
Lemma parse_clock (now now' : instant) (c : Item.t) :
  parse_hn_comment now' c =
  (fun r => {| Job.id := Job.id r; Job.company := Job.company r;
               Job.title := Job.title r; Job.location := Job.location r;
               Job.description := Job.description r; Job.url := Job.url r;
               Job.posted_at := default (timestamp now') (Item.time c) |})
    <$> parse_hn_comment now c.
Proof.
  unfold parse_hn_comment.
  destruct (negb _); [reflexivity|].
  destruct (py_split "<p>" _); [reflexivity|].
  destruct (2 <=? _)%nat; reflexivity.
Qed.

(** A text of one field is rejected. *)
Example just_a_note (now : instant) (i tm : option Z) :
  parse_hn_comment now (Item.mk i (Some "Just a note") tm None None) = None.
Proof. reflexivity. Qed.

(** C1, as the code has it: the text of the claim opens with a paragraph
    marker, so that its first line (what precedes the first [<p>]) is empty and
    the comment is rejected; the same text without the opening [<p>] yields
    the posting with company "Acme Corp", title "Backend Engineer", location
    "Remote" and description "Acme Corp | Backend Engineer | Remote | We build
    things", whatever the other fields of the comment are. *)
Theorem acme_posting (now : instant) (i tm : option Z) (d : option bool)
    (k : option (list Z)) :
  parse_hn_comment now (Item.mk i (Some ("<p>" +:+ acme_text)) tm d k) = None
  /\ parse_hn_comment now (Item.mk i (Some acme_text) tm d k)
     = Some (acme_job i (default (timestamp now) tm)).
Proof. split; reflexivity. Qed.

(** C1 fails as stated: for the text
    "<p>Acme Corp | Backend Engineer | Remote | We build things</p>"
    no posting is returned. *)
Lemma acme_paragraph_rejected :
  ~ exists r,
      parse_hn_comment noon
        (comment_of 1 "<p>Acme Corp | Backend Engineer | Remote | We build things</p>")
      = Some r
      /\ Job.company r = "Acme Corp" /\ Job.title r = "Backend Engineer"
      /\ Job.location r = "Remote"
      /\ Job.description r
         = "Acme Corp | Backend Engineer | Remote | We build things".
Proof. intros (r & H & _). vm_compute in H. discriminate. Qed.

(** C2, as the code has it: [parse_hn_comment] returns nothing exactly when
    the text is absent or empty, or the header (what precedes the first [<p>],
    tags removed, trimmed) splits on "|" into fewer than 2 fields, blank
    fields counted; the header has fewer than 2 fields exactly when there is
    no "|" in it. *)
Theorem parse_rejects_iff (now : instant) (c : Item.t) :
  (parse_hn_comment now c = None <->
   Item.text c = None \/ Item.text c = Some ""
   \/ exists t, Item.text c = Some t /\ (length (header_parts t) < 2)%nat)
  /\ forall t, (length (header_parts t) < 2)%nat
               <-> count_char "|" (first_line t) = 0%nat.
Proof.
  split.
  - rewrite parse_none_inv.
    destruct (Item.text c) as [t|]; cbn [default from_option id].
    + split.
      * intros [Ht|Hl]; [|eauto]. destruct t; [auto|discriminate].
      * intros [|[[= ->]|(t' & [= <-] & Hl)]]; auto; discriminate.
    + split; auto.
  - intros t. rewrite header_parts_length. lia.
Qed.

(** C2 fails as stated: the text "|" has no field that is not blank, and is
    accepted. *)
Lemma bar_only_accepted :
  ~ (parse_hn_comment noon (comment_of 1 "|") = None <->
     Item.text (comment_of 1 "|") = None \/ Item.text (comment_of 1 "|") = Some ""
     \/ exists t, Item.text (comment_of 1 "|") = Some t
                  /\ (length (nonblank_parts t) < 2)%nat).
Proof.
  intros [_ H].
  assert (parse_hn_comment noon (comment_of 1 "|") = None) as Hn.
  { apply H. right; right. exists "|". split; [reflexivity|]. vm_compute. lia. }
  vm_compute in Hn. discriminate.
Qed.

(** C3: the trimmed header fields of an accepted comment go to the record by
    position.  Field 0 is the company, "Unknown Company" when blank; field 1
    is the title, "Software Engineer" when blank; field 2 is the location,
    "Remote" when absent or blank.  The record holds each field cut to the
    limit of its column, which is the field itself when it is within the
    limit ([slice_to_short]). *)
Theorem parse_fields_positional (now : instant) (c : Item.t) (r : Job.t) :
  parse_hn_comment now c = Some r ->
  exists t f0 f1,
    Item.text c = Some t
    /\ header_parts t !! 0%nat = Some f0 /\ header_parts t !! 1%nat = Some f1
    /\ (f0 <> "" -> Job.company r = slice_to 100 f0)
    /\ (f0 = "" -> Job.company r = "Unknown Company")
    /\ (f1 <> "" -> Job.title r = slice_to 200 f1)
    /\ (f1 = "" -> Job.title r = "Software Engineer")
    /\ (forall f2, header_parts t !! 2%nat = Some f2 -> f2 <> "" ->
                   Job.location r = slice_to 100 f2)
    /\ (header_parts t !! 2%nat = None \/ header_parts t !! 2%nat = Some "" ->
        Job.location r = "Remote").
Proof.
  intros H. apply parse_some_inv in H as (t & Ht & _ & Hlen & ->).
  cbv zeta in Hlen. rewrite !nth_lookup. exists t.
  destruct (header_parts t) as [|f0 [|f1 parts]] eqn:Hp; simpl in Hlen; try lia.
  exists f0, f1. cbn [Job.company Job.title Job.location].
  split; [exact Ht|]. split; [reflexivity|]. split; [reflexivity|].
  cbn [lookup list_lookup default from_option id length].
  change (1 <? S (S (length parts)))%nat with true. cbn [andb].
  repeat split.
  - intros Hne. apply truthy_true_iff in Hne. now rewrite Hne.
  - now intros ->.
  - intros Hne. apply truthy_true_iff in Hne. now rewrite Hne.
  - now intros ->.
  - intros f2 Hf2 Hne. destruct parts as [|f2' parts]; [discriminate|].
    injection Hf2 as ->. apply truthy_true_iff in Hne.
    cbn [lookup list_lookup default from_option id length]. now rewrite Hne.
  - intros [Hf2|Hf2]; destruct parts as [|f2' parts]; try discriminate;
      [reflexivity|]. now injection Hf2 as ->.
Qed.

Lemma parse_fields_positional_witness :
  parse_hn_comment noon initech_comment = Some initech_job
  /\ exists t f0 f1,
       Item.text initech_comment = Some t
       /\ header_parts t !! 0%nat = Some f0 /\ header_parts t !! 1%nat = Some f1
       /\ (f0 <> "" -> Job.company initech_job = slice_to 100 f0)
       /\ (f0 = "" -> Job.company initech_job = "Unknown Company")
       /\ (f1 <> "" -> Job.title initech_job = slice_to 200 f1)
       /\ (f1 = "" -> Job.title initech_job = "Software Engineer")
       /\ (forall f2, header_parts t !! 2%nat = Some f2 -> f2 <> "" ->
                      Job.location initech_job = slice_to 100 f2)
       /\ (header_parts t !! 2%nat = None \/ header_parts t !! 2%nat = Some "" ->
           Job.location initech_job = "Remote").
Proof.
  split; [reflexivity|].
  apply (parse_fields_positional noon initech_comment initech_job). reflexivity.
Defined.

(** C4: the posting of an accepted comment has a company of at most 100
    characters, a title of at most 200, a location of at most 100 and a
    description of at most 500.  The description is the first 500 characters
    of the text with its markup stripped; when that text has 600 characters
    the description has exactly 500.  [parse_hn_comment] has no error
    outcome: cutting changes the field, never the acceptance. *)
Theorem parse_lengths (now : instant) (c : Item.t) (r : Job.t) :
  parse_hn_comment now c = Some r ->
  (String.length (Job.company r) <= 100)%nat
  /\ (String.length (Job.title r) <= 200)%nat
  /\ (String.length (Job.location r) <= 100)%nat
  /\ (String.length (Job.description r) <= 500)%nat
  /\ forall t, Item.text c = Some t ->
       Job.description r = slice_to 500 (py_strip (re_sub_tag " " t))
       /\ (String.length (py_strip (re_sub_tag " " t)) = 600%nat ->
           String.length (Job.description r) = 500%nat).
Proof.
  intros H. apply parse_some_inv in H as (t & Ht & _ & _ & ->).
  cbn [Job.company Job.title Job.location Job.description].
  rewrite !slice_to_length.
  split; [lia|]. split; [lia|]. split; [lia|]. split; [lia|].
  intros t' Ht'. rewrite Ht in Ht'. injection Ht' as <-.
  split; [reflexivity|]. intros ->. reflexivity.
Qed.

Lemma parse_lengths_witness :
  parse_hn_comment noon long_comment = Some long_job
  /\ String.length (py_strip (re_sub_tag " " long_text)) = 600%nat
  /\ String.length (Job.title long_job) = 200%nat
  /\ String.length (Job.description long_job) = 500%nat.
Proof.
  assert (parse_hn_comment noon long_comment = Some long_job) as H
    by (vm_compute; reflexivity).
  split; [exact H|]. split; [vm_compute; reflexivity|].
  split; [vm_compute; reflexivity|].
  destruct (parse_lengths noon long_comment long_job H) as (_ & _ & _ & _ & Hd).
  apply (Hd long_text); [reflexivity | vm_compute; reflexivity].
Defined.

(** C10: in the posting of an accepted comment the company, the title and
    the location are not empty, and the url is
    "https://news.ycombinator.com/item?id=" followed by the id of the
    posting, which is the id of the comment as [str] prints it. *)
Theorem parse_nonempty_and_url (now : instant) (c : Item.t) (r : Job.t) :
  parse_hn_comment now c = Some r ->
  Job.company r <> "" /\ Job.title r <> "" /\ Job.location r <> ""
  /\ Job.url r = "https://news.ycombinator.com/item?id=" +:+ Job.id r
  /\ Job.id r = py_str (Item.id c).
Proof.
  intros H. apply parse_some_inv in H as (t & Ht & _ & _ & ->).
  cbn [Job.company Job.title Job.location Job.url Job.id].
  rewrite <- !truthy_true_iff.
  repeat split; apply slice_to_truthy.
  - destruct (truthy (nth 0 _ "")) eqn:E; [exact E|reflexivity].
  - destruct (_ && _) eqn:E; [|reflexivity]. now apply andb_prop in E.
  - destruct (_ && _) eqn:E; [|reflexivity]. now apply andb_prop in E.
Qed.

Lemma parse_nonempty_and_url_witness :
  parse_hn_comment noon initech_comment = Some initech_job
  /\ Job.company initech_job <> "" /\ Job.title initech_job <> ""
  /\ Job.location initech_job <> ""
  /\ Job.url initech_job
     = "https://news.ycombinator.com/item?id=" +:+ Job.id initech_job
  /\ Job.id initech_job = py_str (Item.id initech_comment).
Proof.
  split; [reflexivity|].
  apply (parse_nonempty_and_url noon initech_comment initech_job). reflexivity.
Defined.

(** ** The step: what a run adds to the state *)

Lemma grows_refl (st : state) : grows st st [] [].
Proof. split; rewrite ?app_nil_r; auto. exists []. now rewrite app_nil_r. Qed.

Lemma grows_trans (st1 st2 st3 : state) (r1 r2 : list string)
    (e1 e2 : list Event.t) :
  grows st1 st2 r1 e1 -> grows st2 st3 r2 e2 ->
  grows st1 st3 (r1 ++ r2) (e1 ++ e2).
Proof.
  intros [R1 E1 [l1 L1] S1] [R2 E2 [l2 L2] S2]. split.
  - now rewrite R2, R1, app_assoc.
  - now rewrite E2, E1, app_assoc.
  - exists (l1 ++ l2). now rewrite L2, L1, app_assoc.
  - congruence.
Qed.

Lemma grows_send (u : string) (st : state) : grows st (send u st) [u] [].
Proof. split; simpl; rewrite ?app_nil_r; auto. exists []. now rewrite app_nil_r. Qed.

Lemma grows_log (l : level) (m : string) (d : list (string * log_value))
    (st : state) :
  grows st (log l m d st) [] [].
Proof. split; simpl; rewrite ?app_nil_r; eauto. Qed.

Lemma grows_tick (st : state) : grows st (tick st) [] [].
Proof. split; simpl; rewrite ?app_nil_r; auto. exists []. now rewrite app_nil_r. Qed.

Lemma grows_emit (ev : Event.t) (st : state) : grows st (emit ev st) [] [ev].
Proof. split; simpl; rewrite ?app_nil_r; auto. exists []. now rewrite app_nil_r. Qed.

(** One turn of the comment loop sends one request and emits at most one
    event, which it counts. *)
Lemma fetch_comment_grows (e : env) (st : state) (n : nat) (comment_id : Z) :
  exists evs,
    grows st (fetch_comment e (st, n) comment_id).1 [item_url comment_id] evs
    /\ (fetch_comment e (st, n) comment_id).2 = (n + length evs)%nat
    /\ (length evs <= 1)%nat.
Proof.
  unfold fetch_comment.
  pose proof (grows_send (item_url comment_id) st) as Hs.
  set (st1 := send (item_url comment_id) st) in *.
  assert (forall st2 evs, grows st1 st2 [] evs ->
            grows st st2 [item_url comment_id] evs) as Hk.
  { intros st2 evs H. apply (grows_trans _ _ _ _ _ _ _ Hs H). }
  assert (forall l m d, grows st (log l m d st1) [item_url comment_id] []) as Hl.
  { intros. apply Hk, grows_log. }
  destruct (http_get e (item_url comment_id)) as [err|[c|]]; cbn [fst snd].
  - exists []. simpl. auto with lia.
  - destruct (postable c).
    + destruct (parse_hn_comment _ c) as [job|].
      * destruct (emit_raises e _) as [err|]; cbn [fst snd].
        -- exists []. simpl. split; [|lia]. apply Hk.
           apply (grows_trans _ _ _ [] [] [] [] (grows_tick st1)), grows_log.
        -- exists [normalize_job job]. simpl. split; [|lia]. apply Hk.
           apply (grows_trans _ _ _ [] [] [] _ (grows_tick st1)), grows_emit.
      * exists []. simpl. split; [|lia]. apply Hk, grows_refl.
    + exists []. simpl. split; [|lia]. apply Hk, grows_refl.
  - exists []. simpl. split; [|lia]. apply Hk, grows_refl.
Qed.

(** The loop over [comment_ids] sends one request per id, in order. *)
Lemma fetch_comments_grows (e : env) (ids : list Z) (st : state) (n : nat) :
  exists evs,
    grows st (foldl (fetch_comment e) (st, n) ids).1 (map item_url ids) evs
    /\ (foldl (fetch_comment e) (st, n) ids).2 = (n + length evs)%nat
    /\ (length evs <= length ids)%nat.
Proof.
  revert st n. induction ids as [|i ids IH]; intros st n.
  - exists []. simpl. split; [apply grows_refl|lia].
  - cbn [foldl map].
    destruct (fetch_comment_grows e st n i) as (ev1 & G1 & N1 & L1).
    destruct (fetch_comment e (st, n) i) as [st1 n1]. cbn [fst snd] in *.
    destruct (IH st1 n1) as (ev2 & G2 & N2 & L2).
    exists (ev1 ++ ev2). rewrite length_app. split; [|simpl; lia].
    apply (grows_trans _ _ _ [item_url i] _ _ _ G1 G2).
Qed.


(** One turn of the thread loop sends the request for the thread, then one
    request per comment read. *)
Lemma fetch_thread_grows (e : env) (st : state) (n : nat) (thread_id : Z) :
  exists evs,
    grows st (fetch_thread e (st, n) thread_id).1
      (item_url thread_id :: map item_url (comment_ids e thread_id)) evs
    /\ (fetch_thread e (st, n) thread_id).2 = (n + length evs)%nat
    /\ (length evs <= length (comment_ids e thread_id))%nat.
Proof.
  unfold fetch_thread, comment_ids.
  pose proof (grows_send (item_url thread_id) st) as Hs.
  set (st1 := send (item_url thread_id) st) in *.
  destruct (http_get e (item_url thread_id)) as [err|thread].
  - exists []. cbn [fst snd map length]. split; [|lia].
    apply (grows_trans _ _ _ _ [] _ [] Hs), grows_log.
  - destruct thread as [th|]; cbn [mbind option_bind].
    2: { exists []. cbn [fst snd map length]. split; [|lia].
         apply (grows_trans _ _ _ _ [] _ [] Hs), grows_log. }
    destruct (Item.kids th) as [kids|]; cbn [default from_option id].
    2: { exists []. cbn [fst snd map length take]. split; [|lia].
         apply (grows_trans _ _ _ _ [] _ [] Hs), grows_log. }
    match goal with |- context [foldl _ (?s, n) _] => set (st2 := s) end.
    assert (grows st st2 [item_url thread_id] []) as H2.
    { apply (grows_trans _ _ _ _ [] _ [] Hs), grows_log. }
    destruct (fetch_comments_grows e (take 30 kids) st2 n) as (evs & G & N & L).
    destruct (foldl _ _ _) as [st3 n3]. cbn [fst snd thread_done] in *.
    exists evs. split; [|auto].
    apply (grows_trans _ _ _ _ _ _ _ H2) in G. simpl in G.
    replace (item_url thread_id :: map item_url (take 30 kids))
      with ((item_url thread_id :: map item_url (take 30 kids)) ++ [])
      by apply app_nil_r.
    replace evs with (evs ++ []) by apply app_nil_r.
    apply (grows_trans _ _ _ _ _ _ _ G), grows_log.
Qed.

(** A run for this step is the turn for the latest thread, then the
    status record. *)
Lemma handler_for_hackernews (e : env) (input_data : Input.t) (st : state) :
  for_hackernews input_data ->
  handler e input_data st =
  update_metadata e
    (fetch_thread e (log Info "Fetching from HackerNews Who's Hiring" [] st, 0%nat)
       latest_thread).
Proof. unfold handler. intros [-> | ->]; reflexivity. Qed.

(** The whole of a run for this step. *)
Lemma handler_run (e : env) (input_data : Input.t) (st : state) :
  for_hackernews input_data ->
  exists evs k,
    requests (handler e input_data st)
    = requests st ++ item_url latest_thread
        :: map item_url (comment_ids e latest_thread)
    /\ emitted (handler e input_data st) = emitted st ++ evs
    /\ (length evs <= length (comment_ids e latest_thread))%nat
    /\ store (handler e input_data st)
       = <[status_key :=
             {| Status.lastFetch := isoformat (clock e k);
                Status.jobCount := length evs;
                Status.status :=
                  if (0 <? length evs)%nat then "success" else "error";
                Status.error :=
                  if (0 <? length evs)%nat then None
                  else Some "No jobs found" |}]> (store st).
Proof.
  intros Hsrc. rewrite (handler_for_hackernews _ _ _ Hsrc).
  set (st0 := log Info _ [] st).
  destruct (fetch_thread_grows e st0 0 latest_thread) as (evs & G & N & L).
  destruct (fetch_thread e (st0, 0%nat) latest_thread) as [st1 n1].
  cbn [fst snd] in *. subst n1.
  destruct G as [R E _ S].
  exists evs, (ticks st1).
  cbn [update_metadata log state_set tick requests emitted store].
  rewrite R, E, S. auto.
Qed.

Lemma handler_skip (e : env) (input_data : Input.t) (st : state) :
  ~ for_hackernews input_data -> handler e input_data st = st.
Proof.
  unfold for_hackernews, handler. intros H.
  destruct (Input.source input_data) as [src|]; cbn [default from_option id];
    [|reflexivity].
  destruct (String.eqb_spec src "hackernews") as [->|_]; [tauto|].
  destruct (String.eqb_spec src "all") as [->|_]; [tauto|reflexivity].
Qed.

Lemma for_hackernews_dec (input_data : Input.t) :
  for_hackernews input_data \/ ~ for_hackernews input_data.
Proof.
  unfold for_hackernews. destruct (Input.source input_data) as [src|].
  - destruct (String.eqb_spec src "hackernews") as [->|H1]; [auto|].
    destruct (String.eqb_spec src "all") as [->|H2]; [auto|].
    right. intros [[= ?]|[= ?]]; contradiction.
  - right. intros [|]; discriminate.
Qed.

(** ** The step: the status record, the gate, the bound *)

(** C7: a run whose source matches ends with a status record under
    ("sources", "hackernews"), with the fields lastFetch, jobCount, status and
    error; jobCount is the number of postings emitted in the run; status is
    "error" exactly when jobCount is 0 and "success" otherwise; error is null
    exactly when status is "success". *)
Theorem status_record_persisted (e : env) (input_data : Input.t) (st : state) :
  for_hackernews input_data ->
  exists (rec : Status.t) (evs : list Event.t),
    store (handler e input_data st) !! ("sources", "hackernews") = Some rec
    /\ emitted (handler e input_data st) = emitted st ++ evs
    /\ Status.jobCount rec = length evs
    /\ (exists k, Status.lastFetch rec = isoformat (clock e k))
    /\ (Status.status rec = "error" <-> Status.jobCount rec = 0%nat)
    /\ (Status.status rec = "success" <-> Status.jobCount rec <> 0%nat)
    /\ (Status.error rec = None <-> Status.status rec = "success").
Proof.
  intros Hsrc.
  destruct (handler_run e input_data st Hsrc) as (evs & k & _ & E & _ & S).
  eexists _, evs. rewrite S. split; [apply lookup_insert_eq|].
  split; [exact E|]. cbn [Status.jobCount Status.status Status.error Status.lastFetch].
  split; [reflexivity|]. split; [eauto|].
  destruct (length evs); cbn; repeat split; intros; congruence || lia || auto.
Qed.

Lemma status_record_persisted_witness :
  exists (rec : Status.t) (evs : list Event.t),
    store (handler (demo_env noon) (trigger "all") idle)
      !! ("sources", "hackernews") = Some rec
    /\ emitted (handler (demo_env noon) (trigger "all") idle)
       = emitted idle ++ evs
    /\ Status.jobCount rec = length evs
    /\ (exists k, Status.lastFetch rec = isoformat (clock (demo_env noon) k))
    /\ (Status.status rec = "error" <-> Status.jobCount rec = 0%nat)
    /\ (Status.status rec = "success" <-> Status.jobCount rec <> 0%nat)
    /\ (Status.error rec = None <-> Status.status rec = "success").
Proof.
  apply (status_record_persisted (demo_env noon) (trigger "all") idle).
  right. reflexivity.
Defined.

(** C8: when the source of the trigger (the empty string when the key is
    absent) is neither "hackernews" nor "all", the run returns the state it
    was given: no request is sent, no event is emitted, nothing is logged and
    the store is unchanged. *)
Theorem other_source_no_work (e : env) (input_data : Input.t) (st : state) :
  default "" (Input.source input_data) <> "hackernews" ->
  default "" (Input.source input_data) <> "all" ->
  handler e input_data st = st
  /\ requests (handler e input_data st) = requests st
  /\ emitted (handler e input_data st) = emitted st
  /\ store (handler e input_data st) = store st.
Proof.
  intros H1 H2.
  assert (handler e input_data st = st) as ->; [|auto].
  apply handler_skip. intros [H|H]; rewrite H in *; contradiction.
Qed.

Lemma other_source_no_work_witness :
  handler (demo_env noon) (trigger "linkedin") idle = idle
  /\ requests (handler (demo_env noon) (trigger "linkedin") idle) = requests idle
  /\ emitted (handler (demo_env noon) (trigger "linkedin") idle) = emitted idle
  /\ store (handler (demo_env noon) (trigger "linkedin") idle) = store idle.
Proof.
  apply (other_source_no_work (demo_env noon) (trigger "linkedin") idle);
    discriminate.
Defined.




(** ** The step: one failure does not stop the run *)

Lemma fetch_comment_failure (e : env) (st : state) (n : nat) (comment_id : Z)
    (err : string) :
  comment_failure e st comment_id err ->
  logger (fetch_comment e (st, n) comment_id).1
  = logger st ++ [comment_warning comment_id err]
  /\ emitted (fetch_comment e (st, n) comment_id).1 = emitted st
  /\ store (fetch_comment e (st, n) comment_id).1 = store st
  /\ (fetch_comment e (st, n) comment_id).2 = n.
Proof.
  unfold fetch_comment.
  intros [H | c job Hc Hp Hj He].
  - rewrite H. auto.
  - rewrite Hc, Hp. cbn [send ticks]. rewrite Hj. cbv zeta. rewrite He. auto.
Qed.

Lemma update_metadata_logger (e : env) (thread_id : Z) (acc : state * nat) :
  exists l, logger (update_metadata e (thread_done thread_id acc))
            = logger acc.1 ++ l.
Proof.
  destruct acc as [st n]. simpl. rewrite <- app_assoc. eauto.
Qed.

Lemma update_metadata_emitted (e : env) (acc : state * nat) :
  emitted (update_metadata e acc) = emitted acc.1.
Proof. destruct acc. reflexivity. Qed.

Lemma update_metadata_job_count (e : env) (acc : state * nat) :
  Status.jobCount <$> store (update_metadata e acc) !! ("sources", "hackernews")
  = Some acc.2.
Proof.
  destruct acc as [st n]. cbn [update_metadata log state_set store snd].
  now rewrite lookup_insert_eq.
Qed.

Lemma postable_text (comment : Item.t) :
  postable comment = true ->
  (exists t, Item.text comment = Some t /\ t <> "")
  /\ Item.deleted comment <> Some true.
Proof.
  unfold postable. intros [Ht Hd]%andb_prop. split.
  - destruct (Item.text comment) as [t|]; [|discriminate].
    exists t. split; [reflexivity|]. now apply truthy_true_iff.
  - intros E. rewrite E in Hd. discriminate.
Qed.

(** The turn for a comment that succeeds emits its posting and counts it. *)
Lemma fetch_comment_success (e : env) (st : state) (n : nat) (comment_id : Z) :
  comment_succeeds e comment_id ->
  exists ev,
    posted_from e comment_id ev
    /\ emitted (fetch_comment e (st, n) comment_id).1 = emitted st ++ [ev]
    /\ (fetch_comment e (st, n) comment_id).2 = S n.
Proof.
  intros (c & Hc & Hp & Hk). destruct (Hk (ticks st)) as (job & Hj & He).
  exists (normalize_job job). unfold fetch_comment. rewrite Hc, Hp.
  cbn [send ticks]. rewrite Hj. cbv zeta. rewrite He.
  split; [|split; reflexivity].
  destruct (postable_text c Hp) as [(t & Ht & Hne) Hd].
  exists c, t, (ticks st). cbn [Event.rawJob normalize_job]. auto 10.
Qed.

(** In the loop, every comment that succeeds has its posting among the
    events added, and the count grows by the number of events added. *)
Lemma fetch_comments_success (e : env) (ids : list Z) (st : state) (n : nat) :
  exists evs,
    emitted (foldl (fetch_comment e) (st, n) ids).1 = emitted st ++ evs
    /\ (foldl (fetch_comment e) (st, n) ids).2 = (n + length evs)%nat
    /\ forall j, j ∈ ids -> comment_succeeds e j ->
         exists ev, posted_from e j ev /\ ev ∈ evs.
Proof.
  revert st n. induction ids as [|i ids IH]; intros st n.
  - exists []. cbn. rewrite app_nil_r. split; [reflexivity|].
    split; [lia|]. intros j Hj. now apply elem_of_nil in Hj.
  - cbn [foldl].
    destruct (fetch_comment_grows e st n i) as (ev1 & [_ E1 _ _] & N1 & _).
    pose proof (fetch_comment_success e st n i) as Hi.
    destruct (fetch_comment e (st, n) i) as [st1 n1]. cbn [fst snd] in *.
    destruct (IH st1 n1) as (ev2 & E2 & N2 & H2).
    exists (ev1 ++ ev2). rewrite E2, E1, N2, N1, length_app, <- app_assoc.
    split; [reflexivity|]. split; [lia|].
    intros j [->|Hj]%elem_of_cons Hs.
    + destruct (Hi Hs) as (ev & Hev & E & _). exists ev. split; [exact Hev|].
      rewrite E1 in E. apply app_inv_head in E. subst ev1.
      apply elem_of_app. left. apply list_elem_of_here.
    + destruct (H2 j Hj Hs) as (ev & Hev & Hin). exists ev.
      split; [exact Hev|]. apply elem_of_app. now right.
Qed.

(** C6: in a run whose thread has children, let the turn of the loop for
    the comment [cid] fail, after the comments [pre] and before the comments
    [post].  The failure is caught and logged: the turn ends with one warning
    more in the log, "Failed to fetch comment" with the id and the error, with
    no event more, the same count and the same store.  The comments of [post]
    are then processed from that state, and the run goes on to its end: a
    request was sent for every comment, the warning is in the final log, and
    the status record is written.  What was emitted before the failure is
    kept, the events of the run after it are those of [post], the jobCount
    recorded is the count before the failure plus their number, and every
    comment of [post] that succeeds has its posting among them. *)
Theorem comment_failure_isolated (e : env) (input_data : Input.t) (st : state)
    (thread : Item.t) (kids pre post : list Z) (cid : Z) (err : string) :
  for_hackernews input_data ->
  http_get e (item_url 42575537) = Json (Some thread) ->
  Item.kids thread = Some kids ->
  take 30 kids = pre ++ cid :: post ->
  comment_failure e
    (foldl (fetch_comment e) (comments_start st kids, 0%nat) pre).1 cid err ->
  let before := foldl (fetch_comment e) (comments_start st kids, 0%nat) pre in
  let after := fetch_comment e before cid in
  (logger after.1 = logger before.1 ++ [comment_warning cid err]
   /\ emitted after.1 = emitted before.1
   /\ store after.1 = store before.1
   /\ after.2 = before.2)
  /\ handler e input_data st
     = update_metadata e
         (thread_done 42575537 (foldl (fetch_comment e) after post))
  /\ comment_warning cid err ∈ logger (handler e input_data st)
  /\ requests (handler e input_data st)
     = requests st ++ item_url 42575537 :: map item_url (pre ++ cid :: post)
  /\ is_Some (store (handler e input_data st) !! ("sources", "hackernews"))
  /\ exists evs_post,
       emitted (handler e input_data st) = emitted before.1 ++ evs_post
       /\ Status.jobCount
            <$> store (handler e input_data st) !! ("sources", "hackernews")
          = Some (before.2 + length evs_post)%nat
       /\ forall j, j ∈ post -> comment_succeeds e j ->
            exists ev, posted_from e j ev /\ ev ∈ evs_post.
Proof.
  intros Hsrc Hth Hkids Htake Hfail before after.
  change (comment_failure e before.1 cid err) in Hfail.
  assert (handler e input_data st
          = update_metadata e
              (thread_done 42575537 (foldl (fetch_comment e) after post)))
    as Hrun.
  { rewrite (handler_for_hackernews _ _ _ Hsrc). unfold fetch_thread.
    change (item_url latest_thread) with (item_url 42575537).
    rewrite Hth. cbn [mbind option_bind]. rewrite Hkids, Htake.
    rewrite foldl_app. reflexivity. }
  assert (logger after.1 = logger before.1 ++ [comment_warning cid err]
          /\ emitted after.1 = emitted before.1
          /\ store after.1 = store before.1
          /\ after.2 = before.2) as Hstep.
  { subst after. clearbody before. destruct before as [stb nb].
    apply fetch_comment_failure. exact Hfail. }
  split; [exact Hstep|]. split; [exact Hrun|].
  destruct (handler_run e input_data st Hsrc) as (evs & k & R & _ & _ & S).
  split; [|split; [|split]].
  - rewrite Hrun.
    destruct (update_metadata_logger e 42575537
                (foldl (fetch_comment e) after post)) as [l1 ->].
    destruct after as [sta na] eqn:Ha.
    destruct (fetch_comments_grows e post sta na) as (? & [_ _ [l2 L2] _] & _).
    cbn [fst] in Hstep, L2. rewrite L2. destruct Hstep as [-> _].
    rewrite !elem_of_app, list_elem_of_singleton. auto.
  - rewrite R. unfold comment_ids.
    change (item_url latest_thread) with (item_url 42575537).
    rewrite Hth, Hkids. cbn [default from_option id]. now rewrite Htake.
  - rewrite S. rewrite lookup_insert_eq. eauto.
  - rewrite Hrun, update_metadata_emitted, update_metadata_job_count.
    destruct Hstep as (_ & HE & _ & HN). clearbody after before.
    destruct after as [sta na]. cbn [fst snd] in HE, HN.
    destruct (fetch_comments_success e post sta na) as (evs' & E & N & H).
    destruct (foldl (fetch_comment e) (sta, na) post) as [stf nf].
    cbn [thread_done fst snd log emitted] in *.
    exists evs'. rewrite E, N, HE, HN. auto.
Qed.

Lemma comment_failure_isolated_witness :
  comment_warning 102 "ReadTimeout"
    ∈ logger (handler (demo_env noon) (trigger "hackernews") idle)
  /\ requests (handler (demo_env noon) (trigger "hackernews") idle)
     = requests idle
       ++ item_url 42575537 :: map item_url ([101] ++ 102 :: [103])%Z
  /\ is_Some (store (handler (demo_env noon) (trigger "hackernews") idle)
               !! ("sources", "hackernews"))
  /\ exists evs_post,
       emitted (handler (demo_env noon) (trigger "hackernews") idle)
       = emitted (foldl (fetch_comment (demo_env noon))
                    (comments_start idle [101; 102; 103]%Z, 0%nat) [101]%Z).1
         ++ evs_post
       /\ Status.jobCount
            <$> store (handler (demo_env noon) (trigger "hackernews") idle)
                  !! ("sources", "hackernews")
          = Some ((foldl (fetch_comment (demo_env noon))
                     (comments_start idle [101; 102; 103]%Z, 0%nat) [101]%Z).2
                  + length evs_post)%nat
       /\ exists ev, posted_from (demo_env noon) 103 ev /\ ev ∈ evs_post.
Proof.
  destruct (comment_failure_isolated (demo_env noon)
              (trigger "hackernews") idle
              (Item.mk (Some latest_thread) None (Some 1735689600%Z) None
                 (Some [101; 102; 103]%Z))
              [101; 102; 103]%Z [101]%Z [103]%Z 102 "ReadTimeout")
    as (_ & _ & Hlog & Hreq & Hstore & evs_post & Hev & Hcount & Hpost).
  - left. reflexivity.
  - reflexivity.
  - reflexivity.
  - reflexivity.
  - apply request_fails. reflexivity.
  - split; [exact Hlog|]. split; [exact Hreq|]. split; [exact Hstore|].
    exists evs_post. split; [exact Hev|]. split; [exact Hcount|].
    apply (Hpost 103%Z).
    + apply list_elem_of_here.
    + exists initech_comment. split; [reflexivity|]. split; [reflexivity|].
      intros k. exists initech_job. split; reflexivity.
Defined.

(** A comment that has a time is parsed without the clock. *)
Lemma parse_timed (now now' : instant) (c : Item.t) :
  is_Some (Item.time c) ->
  parse_hn_comment now c = parse_hn_comment now' c.
Proof. intros [t Ht]. unfold parse_hn_comment. now rewrite Ht. Qed.

Section TwoClocks.

Variable srv : string -> response.
Variable bus : Event.t -> option string.
Variables clk1 clk2 : nat -> instant.

Abbreviation e1 := (run_env srv bus clk1).
Abbreviation e2 := (run_env srv bus clk2).

Section UpToTime.

(** The event bus does not look at the time of a posting. *)
Hypothesis bus_ignores_time :
  forall ev ev', erase_time ev = erase_time ev' -> bus ev = bus ev'.

Lemma fetch_comment_sim (a1 a2 : state * nat) (comment_id : Z) :
  same_up_to_time a1 a2 ->
  same_up_to_time (fetch_comment e1 a1 comment_id)
                  (fetch_comment e2 a2 comment_id).
Proof.
  destruct a1 as [s1 n1], a2 as [s2 n2]. unfold same_up_to_time.
  cbn [fst snd]. intros (HR & HL & HS & HT & HN & HE).
  unfold fetch_comment. cbn [http_get emit_raises clock run_env send ticks].
  destruct (srv (item_url comment_id)) as [err|[c|]].
  - cbn. repeat split; congruence.
  - destruct (postable c).
    + rewrite (parse_clock (clk1 (ticks s1)) (clk2 (ticks s2)) c).
      destruct (parse_hn_comment (clk1 (ticks s1)) c) as [j|];
        cbn [fmap option_fmap option_map].
      * match goal with
        | |- context [bus (normalize_job (Job.mk ?a ?b ?c ?d ?f ?g ?h))] =>
            rewrite <- (bus_ignores_time (normalize_job j)
                          (normalize_job (Job.mk a b c d f g h)) eq_refl)
        end.
        destruct (bus (normalize_job j)) as [err|]; cbn.
        -- repeat split; congruence.
        -- rewrite !map_app, HE. repeat split; congruence.
      * cbn. repeat split; congruence.
    + cbn. repeat split; congruence.
  - cbn. repeat split; congruence.
Qed.

Lemma fetch_comments_sim (ids : list Z) (a1 a2 : state * nat) :
  same_up_to_time a1 a2 ->
  same_up_to_time (foldl (fetch_comment e1) a1 ids)
                  (foldl (fetch_comment e2) a2 ids).
Proof.
  revert a1 a2. induction ids as [|i ids IH]; intros a1 a2 H; [exact H|].
  cbn [foldl]. apply IH, fetch_comment_sim, H.
Qed.

Lemma fetch_thread_sim (a1 a2 : state * nat) (thread_id : Z) :
  same_up_to_time a1 a2 ->
  same_up_to_time (fetch_thread e1 a1 thread_id)
                  (fetch_thread e2 a2 thread_id).
Proof.
  destruct a1 as [s1 n1], a2 as [s2 n2]. intros H.
  unfold fetch_thread. cbn [http_get run_env].
  assert (forall l m d,
            same_up_to_time (log l m d (send (item_url thread_id) s1), n1)
                            (log l m d (send (item_url thread_id) s2), n2))
    as Hlog.
  { intros. destruct H as (HR & HL & HS & HT & HN & HE).
    unfold same_up_to_time in *. cbn in *. repeat split; congruence. }
  destruct (srv (item_url thread_id)) as [err|th]; [apply Hlog|].
  destruct (th ≫= Item.kids) as [kids|]; [|apply Hlog].
  pose proof (fetch_comments_sim (take 30 kids) _ _
                (Hlog Info "Processing HackerNews thread"
                   [("thread_id", VInt thread_id);
                    ("comment_count", VInt (Z.of_nat (length kids)))]))
    as Hk.
  destruct (foldl (fetch_comment e1) _ _) as [t1 m1].
  destruct (foldl (fetch_comment e2) _ _) as [t2 m2].
  destruct Hk as (HR & HL & HS & HT & HN & HE).
  unfold same_up_to_time in *. cbn in *. repeat split; congruence.
Qed.

End UpToTime.

Section Timed.

(** Every item the server returns carries a time. *)
Hypothesis all_timed :
  forall u c, srv u = Json (Some c) -> is_Some (Item.time c).

Lemma fetch_comment_timed (a1 a2 : state * nat) (comment_id : Z) :
  a1.2 = a2.2 -> emitted a1.1 = emitted a2.1 ->
  (fetch_comment e1 a1 comment_id).2 = (fetch_comment e2 a2 comment_id).2
  /\ emitted (fetch_comment e1 a1 comment_id).1
     = emitted (fetch_comment e2 a2 comment_id).1.
Proof.
  destruct a1 as [s1 n1], a2 as [s2 n2]. cbn [fst snd]. intros -> HE.
  unfold fetch_comment. cbn [http_get emit_raises clock run_env send ticks].
  destruct (srv (item_url comment_id)) as [err|[c|]] eqn:Hc; cbn; auto.
  destruct (postable c); cbn; auto.
  rewrite (parse_timed (clk1 (ticks s1)) (clk2 (ticks s2)) c)
    by (eapply all_timed; eauto).
  destruct (parse_hn_comment _ c) as [j|]; cbn; auto.
  destruct (bus (normalize_job j)); cbn; auto. now rewrite HE.
Qed.

Lemma fetch_comments_timed (ids : list Z) (a1 a2 : state * nat) :
  a1.2 = a2.2 -> emitted a1.1 = emitted a2.1 ->
  (foldl (fetch_comment e1) a1 ids).2 = (foldl (fetch_comment e2) a2 ids).2
  /\ emitted (foldl (fetch_comment e1) a1 ids).1
     = emitted (foldl (fetch_comment e2) a2 ids).1.
Proof.
  revert a1 a2. induction ids as [|i ids IH]; intros a1 a2 HN HE; [auto|].
  cbn [foldl]. destruct (fetch_comment_timed a1 a2 i HN HE). now apply IH.
Qed.

Lemma fetch_thread_timed (s1 s2 : state) (n : nat) (thread_id : Z) :
  emitted s1 = emitted s2 ->
  emitted (fetch_thread e1 (s1, n) thread_id).1
  = emitted (fetch_thread e2 (s2, n) thread_id).1.
Proof.
  intros HE. unfold fetch_thread. cbn [http_get run_env].
  destruct (srv (item_url thread_id)) as [err|th]; [exact HE|].
  destruct (th ≫= Item.kids) as [kids|]; [|exact HE].
  match goal with
  | |- context [foldl (fetch_comment e1) ?a1 ?l] =>
      match goal with
      | |- context [foldl (fetch_comment e2) ?a2 l] =>
          destruct (fetch_comments_timed l a1 a2 eq_refl HE) as [_ H]
      end
  end.
  destruct (foldl (fetch_comment e1) _ _) as [t1 m1].
  destruct (foldl (fetch_comment e2) _ _) as [t2 m2]. exact H.
Qed.

End Timed.

End TwoClocks.

Lemma same_up_to_time_refl (a : state * nat) : same_up_to_time a a.
Proof. unfold same_up_to_time. auto 10. Qed.

(** C5, as the code has it: take two runs from the same state against the
    same server and the same event bus, the bus not looking at the time of a
    posting, with any two clocks.  The events they emit are the same up to
    [posted_at], and the jobCount they record is the same.  [posted_at] is
    the [time] of the comment when it has one, else the reading of the clock:
    when every item of the server carries a time, the events are the same. *)
Theorem emitted_up_to_clock (srv : string -> response)
    (bus : Event.t -> option string) (clk1 clk2 : nat -> instant)
    (input_data : Input.t) (st : state) :
  (forall ev ev', erase_time ev = erase_time ev' -> bus ev = bus ev') ->
  let r1 := handler (run_env srv bus clk1) input_data st in
  let r2 := handler (run_env srv bus clk2) input_data st in
  map erase_time (emitted r1) = map erase_time (emitted r2)
  /\ Status.jobCount <$> store r1 !! ("sources", "hackernews")
     = Status.jobCount <$> store r2 !! ("sources", "hackernews")
  /\ ((forall u c, srv u = Json (Some c) -> is_Some (Item.time c)) ->
      emitted r1 = emitted r2).
Proof.
  intros Hbus r1 r2. subst r1 r2.
  destruct (for_hackernews_dec input_data) as [Hsrc|Hsrc].
  2: { rewrite !handler_skip by exact Hsrc. auto. }
  rewrite !(handler_for_hackernews _ _ _ Hsrc).
  set (st0 := log Info _ [] st).
  pose proof (fetch_thread_sim srv bus clk1 clk2 Hbus (st0, 0%nat) (st0, 0%nat)
                latest_thread (same_up_to_time_refl _))
    as (_ & _ & _ & _ & HN & HE).
  rewrite !update_metadata_emitted, !update_metadata_job_count.
  split; [exact HE|]. split; [now rewrite HN|].
  intros Htimed. now apply fetch_thread_timed.
Qed.

Lemma emitted_up_to_clock_witness :
  map erase_time (emitted (handler (demo_env noon) (trigger "hackernews") idle))
  = map erase_time
      (emitted (handler (demo_env evening) (trigger "hackernews") idle))
  /\ Status.jobCount
       <$> store (handler (demo_env noon) (trigger "hackernews") idle)
             !! ("sources", "hackernews")
     = Status.jobCount
         <$> store (handler (demo_env evening) (trigger "hackernews") idle)
               !! ("sources", "hackernews").
Proof.
  pose proof (emitted_up_to_clock demo_server (fun _ => None)
                (fun _ => noon) (fun _ => evening)
                (trigger "hackernews") idle (fun _ _ _ => eq_refl))
    as (H1 & H2 & _).
  split; [exact H1 | exact H2].
Defined.

(** C5 fails as stated: two runs over the same comments, one with the clock
    at [noon] and one with the clock at [evening], emit different postings,
    the comments having no time of their own. *)
Lemma emitted_depends_on_clock :
  emitted (handler (demo_env noon) (trigger "hackernews") idle)
  <> emitted (handler (demo_env evening) (trigger "hackernews") idle).
Proof. vm_compute. intros H. discriminate H. Qed.

(** ** Further properties of the parser: no markup is left *)

Lemma upto_gt_none_tag_match (s : string) :
  upto_gt s = None -> tag_match s = None.
Proof.
  destruct s as [|a s]; [reflexivity|]. cbn [upto_gt tag_match].
  destruct (Ascii.eqb a ">"); [discriminate|]. auto.
Qed.

Lemma fmap_S_none (o : option nat) : S <$> o = None -> o = None.
Proof. destruct o; [discriminate|reflexivity]. Qed.

Lemma upto_gt_app (r x : string) :
  count_char ">" r = 0%nat -> upto_gt x = None -> upto_gt (r +:+ x) = None.
Proof.
  induction r as [|a r IH]; [auto|].
  change (String a r +:+ x) with (String a (r +:+ x)).
  cbn [count_char upto_gt].
  destruct (Ascii.eqb a ">"); [discriminate|]. intros Hr Hx.
  now rewrite IH.
Qed.

Lemma tag_free_app (r x : string) :
  count_char "<" r = 0%nat -> count_char ">" r = 0%nat ->
  tag_free x -> tag_free (r +:+ x).
Proof.
  induction r as [|a r IH]; [auto|].
  change (String a r +:+ x) with (String a (r +:+ x)).
  cbn [count_char tag_free].
  destruct (Ascii.eqb_spec a "<") as [->|Ha]; [discriminate|].
  destruct (Ascii.eqb a ">"); [discriminate|]. intros H1 H2 Hx.
  split; [contradiction|]. now apply IH.
Qed.

Section Replacement.

(** A replacement text without angle brackets, as [""] and [" "] are. *)
Variable repl : string.
Hypothesis repl_lt : count_char "<" repl = 0%nat.
Hypothesis repl_gt : count_char ">" repl = 0%nat.

Lemma upto_gt_re_sub (s : string) (k : nat) :
  upto_gt s = None -> upto_gt (re_sub_go repl k s) = None.
Proof.
  revert k. induction s as [|a s IH]; intros k; [reflexivity|].
  cbn [upto_gt re_sub_go].
  destruct (Ascii.eqb a ">") eqn:Ha; [discriminate|]. intros Hs%fmap_S_none.
  destruct k as [|k]; [|auto].
  destruct (Ascii.eqb a "<").
  - destruct (tag_match s).
    + apply upto_gt_app; auto.
    + cbn [upto_gt]. rewrite Ha, IH; auto.
  - cbn [upto_gt]. rewrite Ha, IH; auto.
Qed.

Lemma tag_match_re_sub (s : string) :
  tag_match s = None -> tag_match (re_sub_go repl 0 s) = None.
Proof.
  destruct s as [|b s]; [reflexivity|]. cbn [tag_match re_sub_go].
  destruct (Ascii.eqb_spec b ">") as [->|Hb].
  - intros _. reflexivity.
  - intros Hs%fmap_S_none.
    assert (tag_match (String b (re_sub_go repl 0 s)) = None) as Hkeep.
    { cbn [tag_match]. destruct (Ascii.eqb_spec b ">"); [contradiction|].
      now rewrite upto_gt_re_sub. }
    rewrite (upto_gt_none_tag_match s Hs). now destruct (Ascii.eqb b "<").
Qed.

Lemma tag_free_re_sub (s : string) (k : nat) : tag_free (re_sub_go repl k s).
Proof.
  revert k. induction s as [|a s IH]; intros k; [exact I|].
  cbn [re_sub_go]. destruct k as [|k]; [|apply IH].
  destruct (Ascii.eqb_spec a "<") as [->|Ha].
  - destruct (tag_match s) eqn:Hm.
    + apply tag_free_app; auto.
    + split; [|apply IH]. intros _. now apply tag_match_re_sub.
  - split; [contradiction|apply IH].
Qed.

End Replacement.

(** On a text without tags the substitution changes nothing. *)
Lemma tag_free_fixed (repl s : string) :
  tag_free s -> re_sub_tag repl s = s.
Proof.
  unfold re_sub_tag. induction s as [|a s IH]; [reflexivity|].
  intros [Ha Hs]. cbn [re_sub_go].
  destruct (Ascii.eqb_spec a "<") as [->|_].
  - rewrite Ha by reflexivity. now rewrite IH.
  - now rewrite IH.
Qed.

Lemma tag_free_lstrip (s : string) : tag_free s -> tag_free (lstrip s).
Proof.
  induction s as [|a s IH]; [auto|]. intros H. cbn [lstrip].
  destruct (is_space a); [apply IH, H|exact H].
Qed.

Lemma upto_gt_rstrip (s : string) :
  upto_gt s = None -> upto_gt (rstrip s) = None.
Proof.
  induction s as [|a s IH]; [auto|]. cbn [upto_gt rstrip].
  destruct (Ascii.eqb a ">") eqn:Ha; [discriminate|]. intros Hs%fmap_S_none.
  specialize (IH Hs). destruct (rstrip s) as [|b r].
  - destruct (is_space a); [reflexivity|]. cbn [upto_gt]. now rewrite Ha.
  - cbn [upto_gt] in *. now rewrite Ha, IH.
Qed.

Lemma tag_match_rstrip (s : string) :
  tag_match s = None -> tag_match (rstrip s) = None.
Proof.
  destruct s as [|a s]; [auto|]. cbn [tag_match rstrip].
  destruct (Ascii.eqb a ">") eqn:Ha.
  - intros _. destruct (rstrip s); [destruct (is_space a)|];
      cbn [tag_match]; rewrite ?Ha; reflexivity.
  - intros Hs%fmap_S_none. apply upto_gt_rstrip in Hs.
    destruct (rstrip s) as [|b r].
    + destruct (is_space a); [reflexivity|]. cbn [tag_match]. now rewrite Ha.
    + cbn [tag_match]. now rewrite Ha, Hs.
Qed.

Lemma tag_free_rstrip (s : string) : tag_free s -> tag_free (rstrip s).
Proof.
  induction s as [|a s IH]; [auto|]. intros [Ha Hs]. cbn [rstrip].
  specialize (IH Hs).
  assert (tag_free (String a (rstrip s))) as Hkeep.
  { split; [|exact IH]. intros E. now apply tag_match_rstrip, Ha. }
  destruct (rstrip s) as [|b r]; [|exact Hkeep].
  destruct (is_space a); [exact I|exact Hkeep].
Qed.

Lemma tag_free_strip (s : string) : tag_free s -> tag_free (py_strip s).
Proof. intros H. now apply tag_free_rstrip, tag_free_lstrip. Qed.

Lemma upto_gt_slice (n : nat) (s : string) :
  upto_gt s = None -> upto_gt (slice_to n s) = None.
Proof.
  revert s. induction n as [|n IH]; intros [|a s]; try reflexivity.
  cbn [upto_gt slice_to]. destruct (Ascii.eqb a ">"); [discriminate|].
  intros Hs%fmap_S_none. now rewrite IH.
Qed.

Lemma tag_match_slice (n : nat) (s : string) :
  tag_match s = None -> tag_match (slice_to n s) = None.
Proof.
  destruct n as [|n], s as [|a s]; try reflexivity.
  cbn [tag_match slice_to]. destruct (Ascii.eqb a ">"); [reflexivity|].
  intros Hs%fmap_S_none. now rewrite upto_gt_slice.
Qed.

Lemma tag_free_slice (n : nat) (s : string) :
  tag_free s -> tag_free (slice_to n s).
Proof.
  revert s. induction n as [|n IH]; intros [|a s]; try (intros; exact I).
  intros [Ha Hs]. split; [|now apply IH].
  intros E. now apply tag_match_slice, Ha.
Qed.

Lemma split_go_bar_step (a : ascii) (s : string) :
  split_go "|" 0 (String a s) =
  if Ascii.eqb a "|"
  then (EmptyString, (split_go "|" 0 s).1 :: (split_go "|" 0 s).2)
  else (String a (split_go "|" 0 s).1, (split_go "|" 0 s).2).
Proof.
  cbn [split_go]. rewrite prefix_bar.
  change (String.length "|" - 1)%nat with 0%nat.
  now destruct (Ascii.eqb a "|"), (split_go "|" 0 s).
Qed.

Lemma upto_gt_split (s : string) :
  upto_gt s = None -> upto_gt (split_go "|" 0 s).1 = None.
Proof.
  induction s as [|a s IH]; [auto|]. rewrite split_go_bar_step.
  cbn [upto_gt]. destruct (Ascii.eqb a ">") eqn:Ha; [discriminate|].
  intros Hs%fmap_S_none. destruct (Ascii.eqb a "|"); [reflexivity|].
  cbn [fst upto_gt]. now rewrite Ha, IH.
Qed.

Lemma tag_match_split (s : string) :
  tag_match s = None -> tag_match (split_go "|" 0 s).1 = None.
Proof.
  destruct s as [|a s]; [auto|]. rewrite split_go_bar_step.
  cbn [tag_match]. destruct (Ascii.eqb a "|"); [reflexivity|].
  cbn [fst tag_match]. destruct (Ascii.eqb a ">"); [reflexivity|].
  intros Hs%fmap_S_none. now rewrite upto_gt_split.
Qed.

Lemma tag_free_split (s : string) :
  tag_free s ->
  tag_free (split_go "|" 0 s).1 /\ Forall tag_free (split_go "|" 0 s).2.
Proof.
  induction s as [|a s IH]; [cbn; auto|]. intros [Ha Hs].
  destruct (IH Hs) as [H1 H2]. rewrite split_go_bar_step.
  destruct (Ascii.eqb a "|"); cbn [fst snd].
  - split; [exact I|]. now constructor.
  - split; [|exact H2]. split; [|exact H1].
    intros E. now apply tag_match_split, Ha.
Qed.

Lemma header_parts_tag_free (text : string) :
  Forall tag_free (header_parts text).
Proof.
  unfold header_parts, py_split.
  assert (tag_free (first_line text)) as H.
  { apply tag_free_strip, tag_free_re_sub; reflexivity. }
  apply tag_free_split in H as [H1 H2].
  destruct (split_go "|" 0 (first_line text)) as [f fs]. cbn [fst snd] in *.
  apply Forall_fmap, Forall_cons. split.
  - now apply tag_free_strip.
  - eapply Forall_impl; [exact H2|]. intros. now apply tag_free_strip.
Qed.

Lemma nth_tag_free (i : nat) (parts : list string) :
  Forall tag_free parts -> tag_free (nth i parts "").
Proof.
  intros H. revert i. induction H as [|p parts Hp Hps IH]; intros [|i];
    cbn [nth]; auto; exact I.
Qed.

Lemma default_tag_free (b : bool) (f d : string) :
  tag_free f -> tag_free d -> tag_free (if b then f else d).
Proof. now destruct b. Qed.

(** X1: no field of a posting holds markup.  In the company, the title, the
    location and the description of an accepted comment no match of
    [<[^>]+>] is left: substituting again, with any replacement, changes
    nothing. *)
Theorem posting_has_no_markup (now : instant) (c : Item.t) (r : Job.t)
    (repl : string) :
  parse_hn_comment now c = Some r ->
  re_sub_tag repl (Job.company r) = Job.company r
  /\ re_sub_tag repl (Job.title r) = Job.title r
  /\ re_sub_tag repl (Job.location r) = Job.location r
  /\ re_sub_tag repl (Job.description r) = Job.description r.
Proof.
  intros H. apply parse_some_inv in H as (t & _ & _ & _ & ->).
  cbn [Job.company Job.title Job.location Job.description].
  pose proof (header_parts_tag_free t) as Hp.
  assert (forall s : string, s = "Unknown Company" \/ s = "Software Engineer"
                             \/ s = "Remote" -> tag_free s) as Hd.
  { intros s [-> | [-> | ->]]; cbn; repeat split; discriminate. }
  repeat split; apply tag_free_fixed, tag_free_slice.
  - apply default_tag_free; [apply nth_tag_free, Hp|apply Hd; auto].
  - apply default_tag_free; [apply nth_tag_free, Hp|apply Hd; auto].
  - apply default_tag_free; [apply nth_tag_free, Hp|apply Hd; auto].
  - apply tag_free_strip, tag_free_re_sub; reflexivity.
Qed.

Lemma posting_has_no_markup_witness :
  re_sub_tag "" (Job.company initech_job) = Job.company initech_job
  /\ re_sub_tag "" (Job.title initech_job) = Job.title initech_job
  /\ re_sub_tag "" (Job.location initech_job) = Job.location initech_job
  /\ re_sub_tag "" (Job.description initech_job) = Job.description initech_job.
Proof.
  apply (posting_has_no_markup noon initech_comment initech_job "").
  reflexivity.
Defined.

(** ** Further properties of the parser: the id and the url *)

Lemma to_int_proper (z : Z) :
  Z.to_int z <> Decimal.Pos Decimal.Nil /\ Z.to_int z <> Decimal.Neg Decimal.Nil.
Proof.
  destruct z as [|p|p]; cbn; split; try discriminate;
    intros [= H]; now apply DecimalPos.Unsigned.to_uint_nonnil in H.
Qed.

(** Reading back the numeral of an [int] gives the [int]. *)
Lemma str_int_read (z : Z) :
  Z.of_int <$> NilZero.int_of_string (str_int z) = Some z.
Proof.
  unfold str_int. destruct (to_int_proper z) as [H1 H2].
  rewrite NilZero.isi by assumption. cbn. now rewrite DecimalZ.of_to.
Qed.

Lemma py_str_inj (x y : option Z) : py_str x = py_str y -> x = y.
Proof.
  destruct x as [x|], y as [y|]; cbn [py_str]; intros H.
  - pose proof (str_int_read x) as Hx. rewrite H, str_int_read in Hx.
    congruence.
  - pose proof (str_int_read x) as Hx. rewrite H in Hx. discriminate Hx.
  - pose proof (str_int_read y) as Hy. rewrite <- H in Hy. discriminate Hy.
  - reflexivity.
Qed.

(** X2: the id and the url of a posting identify the comment.  Two accepted
    comments whose postings have the same id, or the same url, have the same
    [id]: distinct comment ids never collide, and a comment without an id
    (printed "None") never collides with one that has an id. *)
Theorem posting_identifies_comment (now now' : instant) (c c' : Item.t)
    (r r' : Job.t) :
  parse_hn_comment now c = Some r ->
  parse_hn_comment now' c' = Some r' ->
  Job.id r = Job.id r' \/ Job.url r = Job.url r' ->
  Item.id c = Item.id c'.
Proof.
  intros H H'.
  apply parse_some_inv in H as (t & _ & _ & _ & ->).
  apply parse_some_inv in H' as (t' & _ & _ & _ & ->).
  cbn [Job.id Job.url]. intros [E|E]; apply py_str_inj; [exact E|].
  now apply (inj (String.app _)) in E.
Qed.

Lemma posting_identifies_comment_witness :
  Item.id initech_comment = Item.id (comment_of 7 "Initech |  | <i>Austin</i> , TX<p>We ship TPS reports.").
Proof.
  apply (posting_identifies_comment noon evening initech_comment
           (comment_of 7 "Initech |  | <i>Austin</i> , TX<p>We ship TPS reports.")
           initech_job
           {| Job.id := "7"; Job.company := "Initech";
              Job.title := "Software Engineer"; Job.location := "Austin , TX";
              Job.description := "Initech |  |  Austin  , TX We ship TPS reports.";
              Job.url := "https://news.ycombinator.com/item?id=7";
              Job.posted_at := 1735758000 |}).
  - reflexivity.
  - reflexivity.
  - left. reflexivity.
Defined.

(** ** Further properties of the parser: where the pipes count *)

Lemma count_char_re_sub (a : ascii) (s : string) (k : nat) :
  (count_char a (re_sub_go "" k s) <= count_char a s)%nat.
Proof.
  revert k. induction s as [|b s IH]; intros k; [reflexivity|].
  cbn [re_sub_go count_char]. destruct k as [|k].
  - destruct (Ascii.eqb b "<").
    + destruct (tag_match s) as [n|].
      * change ("" +:+ re_sub_go "" n s) with (re_sub_go "" n s).
        specialize (IH n). lia.
      * cbn [count_char]. specialize (IH 0%nat). lia.
    + cbn [count_char]. specialize (IH 0%nat). lia.
  - specialize (IH k). lia.
Qed.

Lemma count_char_lstrip (a : ascii) (s : string) :
  (count_char a (lstrip s) <= count_char a s)%nat.
Proof.
  induction s as [|b s IH]; [reflexivity|]. cbn [lstrip].
  destruct (is_space b); cbn [count_char]; lia.
Qed.

Lemma count_char_rstrip (a : ascii) (s : string) :
  (count_char a (rstrip s) <= count_char a s)%nat.
Proof.
  induction s as [|b s IH]; [reflexivity|]. cbn [rstrip count_char].
  destruct (rstrip s) as [|c r].
  - destruct (is_space b); cbn [count_char]; lia.
  - cbn [count_char] in *. lia.
Qed.

Lemma count_char_first_line (a : ascii) (text : string) :
  (count_char a (first_line text)
   <= count_char a (hd "" (py_split "<p>" text)))%nat.
Proof.
  unfold first_line, py_strip, re_sub_tag.
  etransitivity; [apply count_char_rstrip|].
  etransitivity; [apply count_char_lstrip|]. apply count_char_re_sub.
Qed.

(** X3: a comment is accepted only for a pipe of its first paragraph.  When
    what precedes the first [<p>] of the text holds no "|", the comment is
    rejected, whatever follows the first [<p>]. *)
Theorem rejected_without_pipe_in_first_paragraph (now : instant) (c : Item.t)
    (t : string) :
  Item.text c = Some t ->
  count_char "|" (hd "" (py_split "<p>" t)) = 0%nat ->
  parse_hn_comment now c = None.
Proof.
  intros Ht Hbar. apply parse_none_inv. right.
  rewrite Ht. cbn [default from_option id]. rewrite header_parts_length.
  pose proof (count_char_first_line "|" t). lia.
Qed.

Lemma rejected_without_pipe_in_first_paragraph_witness :
  parse_hn_comment noon
    (comment_of 9 "We are hiring<p>Acme | Engineer | Remote") = None.
Proof.
  apply (rejected_without_pipe_in_first_paragraph noon _
           "We are hiring<p>Acme | Engineer | Remote"); reflexivity.
Defined.

(** ** Further properties of the parser: trimmed fields *)

Lemma lstrip_trimmed (s : string) : starts_trimmed (lstrip s).
Proof.
  induction s as [|a s IH]; [exact I|]. cbn [lstrip].
  destruct (is_space a) eqn:Ha; [exact IH|exact Ha].
Qed.

Lemma rstrip_trimmed (s : string) :
  starts_trimmed s -> starts_trimmed (rstrip s).
Proof.
  destruct s as [|a s]; [auto|]. cbn [rstrip starts_trimmed]. intros Ha.
  destruct (rstrip s); [rewrite Ha|]; exact Ha.
Qed.

Lemma py_strip_trimmed (s : string) : starts_trimmed (py_strip s).
Proof. apply rstrip_trimmed, lstrip_trimmed. Qed.

Lemma slice_to_trimmed (n : nat) (s : string) :
  starts_trimmed s -> starts_trimmed (slice_to n s).
Proof. destruct n, s; auto; intros; exact I. Qed.

Lemma nth_header_trimmed (i : nat) (text : string) :
  starts_trimmed (nth i (header_parts text) "").
Proof.
  unfold header_parts.
  generalize (py_split "|" (first_line text)). intros l. revert i.
  induction l as [|p l IH]; intros [|i]; cbn [map nth]; try exact I.
  - apply py_strip_trimmed.
  - apply IH.
Qed.

(** X4: the fields of a posting are trimmed on the left.  The company, the
    title, the location and the description of an accepted comment do not
    start with a white space character. *)
Theorem posting_fields_trimmed (now : instant) (c : Item.t) (r : Job.t) :
  parse_hn_comment now c = Some r ->
  starts_trimmed (Job.company r) /\ starts_trimmed (Job.title r)
  /\ starts_trimmed (Job.location r) /\ starts_trimmed (Job.description r).
Proof.
  intros H. apply parse_some_inv in H as (t & _ & _ & _ & ->).
  cbn [Job.company Job.title Job.location Job.description].
  repeat split; apply slice_to_trimmed.
  - destruct (truthy _); [apply nth_header_trimmed|reflexivity].
  - destruct (_ && _); [apply nth_header_trimmed|reflexivity].
  - destruct (_ && _); [apply nth_header_trimmed|reflexivity].
  - apply py_strip_trimmed.
Qed.

Lemma posting_fields_trimmed_witness :
  starts_trimmed (Job.company initech_job)
  /\ starts_trimmed (Job.title initech_job)
  /\ starts_trimmed (Job.location initech_job)
  /\ starts_trimmed (Job.description initech_job).
Proof.
  apply (posting_fields_trimmed noon initech_comment initech_job).
  reflexivity.
Defined.

Lemma rstrip_idem (s : string) : rstrip (rstrip s) = rstrip s.
Proof.
  induction s as [|a s IH]; [reflexivity|]. cbn [rstrip].
  destruct (rstrip s) as [|b r] eqn:E.
  - destruct (is_space a) eqn:Ha; [reflexivity|]. cbn [rstrip]. now rewrite Ha.
  - cbn [rstrip] in *. now rewrite IH.
Qed.

Lemma lstrip_fixed (s : string) : starts_trimmed s -> lstrip s = s.
Proof. destruct s as [|a s]; [auto|]. cbn. now intros ->. Qed.

Lemma py_strip_idem (s : string) : py_strip (py_strip s) = py_strip s.
Proof.
  unfold py_strip at 1. rewrite lstrip_fixed by apply py_strip_trimmed.
  apply rstrip_idem.
Qed.

Lemma slice_to_uncut (n : nat) (s : string) :
  (String.length (slice_to n s) < n)%nat -> slice_to n s = s.
Proof.
  rewrite slice_to_length. intros H. apply slice_to_short. lia.
Qed.

Lemma nth_header_stripped (i : nat) (text : string) :
  py_strip (nth i (header_parts text) "") = nth i (header_parts text) "".
Proof.
  unfold header_parts.
  generalize (py_split "|" (first_line text)). intros l. revert i.
  induction l as [|p l IH]; intros [|i]; cbn [map nth]; try reflexivity.
  - apply py_strip_idem.
  - apply IH.
Qed.

(** X5: a field that was not cut is trimmed on both sides.  When the
    company, the title, the location or the description of a posting is
    shorter than its limit, stripping it again changes nothing. *)
Theorem uncut_fields_stripped (now : instant) (c : Item.t) (r : Job.t) :
  parse_hn_comment now c = Some r ->
  ((String.length (Job.company r) < 100)%nat ->
   py_strip (Job.company r) = Job.company r)
  /\ ((String.length (Job.title r) < 200)%nat ->
      py_strip (Job.title r) = Job.title r)
  /\ ((String.length (Job.location r) < 100)%nat ->
      py_strip (Job.location r) = Job.location r)
  /\ ((String.length (Job.description r) < 500)%nat ->
      py_strip (Job.description r) = Job.description r).
Proof.
  intros H. apply parse_some_inv in H as (t & _ & _ & _ & ->).
  cbn [Job.company Job.title Job.location Job.description].
  repeat split; intros Hlen; rewrite (slice_to_uncut _ _ Hlen).
  - destruct (truthy _); [apply nth_header_stripped|reflexivity].
  - destruct (_ && _); [apply nth_header_stripped|reflexivity].
  - destruct (_ && _); [apply nth_header_stripped|reflexivity].
  - apply py_strip_idem.
Qed.

Lemma uncut_fields_stripped_witness :
  py_strip (Job.location initech_job) = Job.location initech_job.
Proof.
  destruct (uncut_fields_stripped noon initech_comment initech_job eq_refl)
    as (_ & _ & H & _).
  apply H. vm_compute. lia.
Defined.

(** ** Further properties of the step: where the events come from *)

Lemma postable_inv (comment : Item.t) :
  postable comment = true ->
  (exists t, Item.text comment = Some t /\ t <> "")
  /\ Item.deleted comment <> Some true.
Proof.
  unfold postable. intros [Ht Hd]%andb_prop. split.
  - destruct (Item.text comment) as [t|]; [|discriminate].
    exists t. split; [reflexivity|]. now apply truthy_true_iff.
  - intros E. rewrite E in Hd. discriminate.
Qed.

Lemma fetch_comment_posted (e : env) (st : state) (n : nat) (comment_id : Z) :
  exists evs,
    emitted (fetch_comment e (st, n) comment_id).1 = emitted st ++ evs
    /\ Forall (posted_from e comment_id) evs.
Proof.
  unfold fetch_comment.
  destruct (http_get e (item_url comment_id)) as [err|[c|]] eqn:Hc;
    try (exists []; cbn; now rewrite app_nil_r).
  destruct (postable c) eqn:Hp;
    [|exists []; cbn; now rewrite app_nil_r].
  cbn [send ticks].
  destruct (parse_hn_comment (clock e (ticks st)) c) as [job|] eqn:Hj;
    [|exists []; cbn; now rewrite app_nil_r].
  cbv zeta.
  destruct (emit_raises e (normalize_job job)) as [err|] eqn:He;
    [exists []; cbn; now rewrite app_nil_r|].
  exists [normalize_job job]. split; [reflexivity|].
  apply Forall_singleton.
  destruct (postable_inv c Hp) as [(t & Ht & Hne) Hd].
  exists c, t, (ticks st). cbn [Event.rawJob normalize_job]. auto 10.
Qed.

Lemma fetch_comments_posted (e : env) (ids : list Z) (st : state) (n : nat) :
  exists evs,
    emitted (foldl (fetch_comment e) (st, n) ids).1 = emitted st ++ evs
    /\ Forall (fun ev => exists cid, cid ∈ ids /\ posted_from e cid ev) evs.
Proof.
  revert st n. induction ids as [|i ids IH]; intros st n.
  - exists []. cbn. now rewrite app_nil_r.
  - cbn [foldl]. destruct (fetch_comment_posted e st n i) as (ev1 & E1 & F1).
    destruct (fetch_comment e (st, n) i) as [st1 n1]. cbn [fst] in *.
    destruct (IH st1 n1) as (ev2 & E2 & F2).
    exists (ev1 ++ ev2). split; [now rewrite E2, E1, app_assoc|].
    apply Forall_app. split.
    + eapply Forall_impl; [exact F1|]. intros ev H. exists i.
      split; [apply list_elem_of_here|exact H].
    + eapply Forall_impl; [exact F2|]. intros ev (cid & Hin & H).
      exists cid. split; [now apply list_elem_of_further|exact H].
Qed.

Lemma fetch_thread_posted (e : env) (st : state) (n : nat) (thread_id : Z) :
  exists evs,
    emitted (fetch_thread e (st, n) thread_id).1 = emitted st ++ evs
    /\ Forall (fun ev => exists cid,
                 cid ∈ comment_ids e thread_id /\ posted_from e cid ev) evs.
Proof.
  unfold fetch_thread, comment_ids.
  destruct (http_get e (item_url thread_id)) as [err|[th|]];
    cbn [mbind option_bind];
    try (exists []; cbn; now rewrite app_nil_r).
  destruct (Item.kids th) as [kids|]; cbn [default from_option id];
    [|exists []; cbn; now rewrite app_nil_r].
  match goal with |- context [foldl _ (?s, n) _] => set (st2 := s) end.
  destruct (fetch_comments_posted e (take 30 kids) st2 n) as (evs & E & F).
  destruct (foldl _ _ _) as [st3 n3]. cbn [fst thread_done log emitted] in *.
  exists evs. split; [exact E|exact F].
Qed.

Lemma handler_posted (e : env) (input_data : Input.t) (st : state) :
  exists evs,
    emitted (handler e input_data st) = emitted st ++ evs
    /\ Forall (fun ev => exists cid,
                 cid ∈ comment_ids e latest_thread /\ posted_from e cid ev)
         evs.
Proof.
  destruct (for_hackernews_dec input_data) as [Hsrc|Hsrc].
  2: { exists []. rewrite handler_skip by exact Hsrc. now rewrite app_nil_r. }
  rewrite (handler_for_hackernews _ _ _ Hsrc).
  set (st0 := log Info _ [] st).
  destruct (fetch_thread_posted e st0 0 latest_thread) as (evs & E & F).
  exists evs. rewrite update_metadata_emitted. split; [exact E|exact F].
Qed.

(** X6: every event of a run is the posting of a comment it read.  The
    events a run adds are each [normalize_job] of what the parser returned,
    at some reading of the clock, for one of the first 30 children of the
    thread, whose request returned a comment with a text that is not empty
    and that is not marked deleted; its topic is one the [config] declares. *)
Theorem events_are_postings (e : env) (input_data : Input.t) (st : state) :
  exists evs,
    emitted (handler e input_data st) = emitted st ++ evs
    /\ Forall (fun ev =>
                 Event.topic ev ∈ Config.emits config
                 /\ Event.source ev = "hackernews"
                 /\ exists cid,
                      cid ∈ comment_ids e latest_thread
                      /\ posted_from e cid ev) evs.
Proof.
  destruct (handler_posted e input_data st) as (evs & E & F).
  exists evs. split; [exact E|].
  eapply Forall_impl; [exact F|]. intros ev (cid & Hin & H).
  pose proof H as (c & t & k & _ & _ & _ & _ & _ & Hev & _).
  split; [|split; [|eauto]]; rewrite Hev.
  - apply list_elem_of_here.
  - reflexivity.
Qed.

(** X7: when [context.emit] raises for every event, a run emits nothing and
    records zero jobs with the status "error". *)
Theorem failing_bus_counts_nothing (e : env) (input_data : Input.t)
    (st : state) :
  for_hackernews input_data ->
  (forall ev, emit_raises e ev <> None) ->
  emitted (handler e input_data st) = emitted st
  /\ exists k,
       store (handler e input_data st) !! ("sources", "hackernews")
       = Some (no_jobs_status (clock e k)).
Proof.
  intros Hsrc Hbus.
  destruct (handler_posted e input_data st) as (evs & E & F).
  assert (evs = []) as ->.
  { destruct evs as [|ev evs]; [reflexivity|].
    apply Forall_cons in F as [(cid & _ & H) _].
    destruct H as (c & t & k & _ & _ & _ & _ & _ & _ & He).
    now apply Hbus in He. }
  rewrite app_nil_r in E. split; [exact E|].
  destruct (handler_run e input_data st Hsrc) as (evs & k & _ & E' & _ & S).
  rewrite E in E'.
  assert (evs = []) as ->.
  { apply (app_inv_head (emitted st)). now rewrite app_nil_r. }
  exists k. rewrite S. apply lookup_insert_eq.
Qed.

Lemma failing_bus_counts_nothing_witness :
  emitted (handler (run_env demo_server (fun _ => Some "bus down")
                      (fun _ => noon))
             (trigger "hackernews") idle) = emitted idle.
Proof.
  apply (failing_bus_counts_nothing
           (run_env demo_server (fun _ => Some "bus down") (fun _ => noon))
           (trigger "hackernews") idle).
  - left. reflexivity.
  - intros ev. discriminate.
Defined.

(** ** Further properties of the step: a run over a reliable bus *)

Section ReliableBus.

Variable e : env.
Hypothesis bus_reliable : forall ev, emit_raises e ev = None.

Lemma fetch_comment_reliable (now : instant) (st : state) (n : nat)
    (comment_id : Z) :
  exists evs,
    emitted (fetch_comment e (st, n) comment_id).1 = emitted st ++ evs
    /\ map erase_time evs
       = option_list (erase_time <$> candidate e now comment_id)
    /\ logger (fetch_comment e (st, n) comment_id).1
       = logger st ++ option_list (request_warning e comment_id)
    /\ (fetch_comment e (st, n) comment_id).2 = (n + length evs)%nat.
Proof.
  unfold fetch_comment, candidate, request_warning.
  destruct (http_get e (item_url comment_id)) as [err|[c|]].
  - exists []. cbn. rewrite app_nil_r. auto with lia.
  - destruct (postable c).
    2: { exists []. cbn. rewrite !app_nil_r. auto with lia. }
    cbn [send ticks].
    rewrite (parse_clock now (clock e (ticks st)) c).
    destruct (parse_hn_comment now c) as [job|];
      cbn [fmap option_fmap option_map].
    2: { exists []. cbn. rewrite !app_nil_r. auto with lia. }
    cbv zeta. rewrite bus_reliable.
    match goal with |- context [emit ?ev _] => exists [ev] end. cbn.
    rewrite app_nil_r. repeat split. lia.
  - exists []. cbn. rewrite !app_nil_r. auto with lia.
Qed.

Lemma fetch_comments_reliable (now : instant) (ids : list Z) (st : state)
    (n : nat) :
  exists evs,
    emitted (foldl (fetch_comment e) (st, n) ids).1 = emitted st ++ evs
    /\ map erase_time evs
       = omap (fun cid => erase_time <$> candidate e now cid) ids
    /\ logger (foldl (fetch_comment e) (st, n) ids).1
       = logger st ++ omap (request_warning e) ids
    /\ (foldl (fetch_comment e) (st, n) ids).2 = (n + length evs)%nat.
Proof.
  revert st n. induction ids as [|i ids IH]; intros st n.
  - exists []. cbn. rewrite !app_nil_r. auto with lia.
  - cbn [foldl].
    destruct (fetch_comment_reliable now st n i) as (ev1 & E1 & M1 & L1 & N1).
    destruct (fetch_comment e (st, n) i) as [st1 n1]. cbn [fst snd] in *.
    destruct (IH st1 n1) as (ev2 & E2 & M2 & L2 & N2).
    exists (ev1 ++ ev2).
    rewrite E2, E1, L2, L1, N2, N1, map_app, M1, M2, length_app, <- !app_assoc.
    repeat split; [| |lia].
    + cbn [omap list_omap]. now destruct (erase_time <$> candidate e now i).
    + cbn [omap list_omap]. now destruct (request_warning e i).
Qed.

Lemma fetch_thread_reliable (now : instant) (st : state) (n : nat)
    (thread_id : Z) :
  exists evs,
    emitted (fetch_thread e (st, n) thread_id).1 = emitted st ++ evs
    /\ map erase_time evs
       = omap (fun cid => erase_time <$> candidate e now cid)
           (comment_ids e thread_id)
    /\ (fetch_thread e (st, n) thread_id).2 = (n + length evs)%nat.
Proof.
  unfold fetch_thread, comment_ids.
  destruct (http_get e (item_url thread_id)) as [err|[th|]];
    cbn [mbind option_bind];
    try solve [exists []; cbn; rewrite app_nil_r; auto with lia].
  destruct (Item.kids th) as [kids|]; cbn [default from_option id];
    [|exists []; cbn; rewrite app_nil_r; auto with lia].
  match goal with |- context [foldl _ (?s, n) _] => set (st2 := s) end.
  destruct (fetch_comments_reliable now (take 30 kids) st2 n)
    as (evs & E & M & _ & N).
  destruct (foldl _ _ _) as [st3 n3]. cbn [fst snd thread_done log emitted] in *.
  exists evs. auto.
Qed.

End ReliableBus.

(** X8: over a bus that takes every event, the events of a run are the
    postings of the comments it read, in the order of the thread.  Up to
    [posted_at], the events added are those the loop body builds for the
    first 30 children, one for each child whose request returns a comment
    with a text, not deleted, that the parser accepts; the jobCount recorded
    is their number. *)
Theorem events_in_thread_order (e : env) (input_data : Input.t) (st : state)
    (now : instant) :
  for_hackernews input_data ->
  (forall ev, emit_raises e ev = None) ->
  exists evs,
    emitted (handler e input_data st) = emitted st ++ evs
    /\ map erase_time evs
       = omap (fun cid => erase_time <$> candidate e now cid)
           (comment_ids e latest_thread)
    /\ Status.jobCount
         <$> store (handler e input_data st) !! ("sources", "hackernews")
       = Some (length evs).
Proof.
  intros Hsrc Hbus. rewrite (handler_for_hackernews _ _ _ Hsrc).
  set (st0 := log Info _ [] st).
  destruct (fetch_thread_reliable e Hbus now st0 0 latest_thread)
    as (evs & E & M & N).
  exists evs. rewrite update_metadata_emitted, update_metadata_job_count.
  split; [exact E|]. split; [exact M|]. now rewrite N.
Qed.

Lemma events_in_thread_order_witness :
  exists evs,
    emitted (handler (demo_env noon) (trigger "hackernews") idle)
    = emitted idle ++ evs
    /\ map erase_time evs
       = omap (fun cid => erase_time <$> candidate (demo_env noon) evening cid)
           (comment_ids (demo_env noon) latest_thread)
    /\ Status.jobCount
         <$> store (handler (demo_env noon) (trigger "hackernews") idle)
               !! ("sources", "hackernews")
       = Some (length evs).
Proof.
  apply (events_in_thread_order (demo_env noon) (trigger "hackernews") idle
           evening).
  - left. reflexivity.
  - intros ev. reflexivity.
Defined.

(** X9: over a bus that takes every event, the log of a run tells the failed
    requests and nothing else.  When the thread has children, the run adds
    the two opening entries, then one warning for each of the first 30
    children whose request raises, in order, then the two closing entries,
    which report the jobCount recorded: a comment that is rejected, deleted
    or without text leaves no entry. *)
Theorem log_of_a_run (e : env) (input_data : Input.t) (st : state)
    (thread : Item.t) (kids : list Z) :
  for_hackernews input_data ->
  (forall ev, emit_raises e ev = None) ->
  http_get e (item_url 42575537) = Json (Some thread) ->
  Item.kids thread = Some kids ->
  exists n,
    logger (handler e input_data st)
    = logger st ++ opening_entries kids
        ++ omap (request_warning e) (take 30 kids) ++ closing_entries n
    /\ Status.jobCount
         <$> store (handler e input_data st) !! ("sources", "hackernews")
       = Some n.
Proof.
  intros Hsrc Hbus Hth Hkids. rewrite (handler_for_hackernews _ _ _ Hsrc).
  rewrite update_metadata_job_count. unfold fetch_thread.
  change (item_url latest_thread) with (item_url 42575537).
  rewrite Hth. cbn [mbind option_bind]. rewrite Hkids.
  match goal with |- context [foldl _ (?s, 0%nat) _] => set (st2 := s) end.
  destruct (fetch_comments_reliable e Hbus noon (take 30 kids) st2 0)
    as (evs & _ & _ & L & _).
  destruct (foldl _ _ _) as [st3 n3]. cbn [fst snd] in *.
  exists n3. split; [|reflexivity].
  cbn [thread_done update_metadata log state_set tick logger].
  rewrite L. subst st2. cbn [log send logger]. unfold opening_entries,
    closing_entries. now rewrite <- !app_assoc.
Qed.

Lemma log_of_a_run_witness :
  exists n,
    logger (handler (demo_env noon) (trigger "hackernews") idle)
    = logger idle ++ opening_entries [101; 102; 103]%Z
        ++ omap (request_warning (demo_env noon)) (take 30 [101; 102; 103]%Z)
        ++ closing_entries n
    /\ Status.jobCount
         <$> store (handler (demo_env noon) (trigger "hackernews") idle)
               !! ("sources", "hackernews")
       = Some n.
Proof.
  apply (log_of_a_run (demo_env noon) (trigger "hackernews") idle
           (Item.mk (Some latest_thread) None (Some 1735689600%Z) None
              (Some [101; 102; 103]%Z))).
  - left. reflexivity.
  - intros ev. reflexivity.
  - reflexivity.
  - reflexivity.
Defined.

(** ** Further properties of the step: a thread that cannot be read *)

(** X10: when the request for the thread raises, the run asks for no
    comment and emits nothing; it logs the error with the id of the thread
    and the message, and still writes the status record, with zero jobs, the
    status "error" and the error "No jobs found", read off the clock once. *)
Theorem thread_request_fails (e : env) (input_data : Input.t) (st : state)
    (err : string) :
  for_hackernews input_data ->
  http_get e (item_url 42575537) = Raised err ->
  requests (handler e input_data st) = requests st ++ [item_url 42575537]
  /\ emitted (handler e input_data st) = emitted st
  /\ logger (handler e input_data st)
     = logger st
       ++ [ {| lvl := Info; msg := "Fetching from HackerNews Who's Hiring";
               data := [] |};
            {| lvl := Error; msg := "Failed to fetch HN thread";
               data := [("thread_id", VInt 42575537); ("error", VStr err)] |};
            {| lvl := Info; msg := "HackerNews fetch completed";
               data := [("total_jobs", VInt 0)] |} ]
  /\ store (handler e input_data st)
     = <[("sources", "hackernews") := no_jobs_status (clock e (ticks st))]>
         (store st)
  /\ ticks (handler e input_data st) = S (ticks st).
Proof.
  intros Hsrc Hth. rewrite (handler_for_hackernews _ _ _ Hsrc).
  unfold fetch_thread.
  change (item_url latest_thread) with (item_url 42575537). rewrite Hth.
  cbn [update_metadata log send state_set tick requests emitted logger store
       ticks].
  rewrite <- !app_assoc. repeat split.
Qed.

Lemma thread_request_fails_witness :
  requests (handler (run_env (fun _ => Raised "ConnectError") (fun _ => None)
                       (fun _ => noon)) (trigger "all") idle)
  = requests idle ++ [item_url 42575537].
Proof.
  apply (thread_request_fails
           (run_env (fun _ => Raised "ConnectError") (fun _ => None)
              (fun _ => noon)) (trigger "all") idle "ConnectError").
  - right. reflexivity.
  - reflexivity.
Defined.

(** X11: when the thread comes back as [null] or without the key [kids],
    the run asks for no comment and emits nothing; it logs the warning
    "Thread has no comments" and writes the status record with zero jobs,
    the status "error" and the error "No jobs found". *)
Theorem thread_without_kids (e : env) (input_data : Input.t) (st : state)
    (thread : option Item.t) :
  for_hackernews input_data ->
  http_get e (item_url 42575537) = Json thread ->
  thread ≫= Item.kids = None ->
  requests (handler e input_data st) = requests st ++ [item_url 42575537]
  /\ emitted (handler e input_data st) = emitted st
  /\ logger (handler e input_data st)
     = logger st
       ++ [ {| lvl := Info; msg := "Fetching from HackerNews Who's Hiring";
               data := [] |};
            {| lvl := Warn; msg := "Thread has no comments";
               data := [("thread_id", VInt 42575537)] |};
            {| lvl := Info; msg := "HackerNews fetch completed";
               data := [("total_jobs", VInt 0)] |} ]
  /\ store (handler e input_data st)
     = <[("sources", "hackernews") := no_jobs_status (clock e (ticks st))]>
         (store st).
Proof.
  intros Hsrc Hth Hk. rewrite (handler_for_hackernews _ _ _ Hsrc).
  unfold fetch_thread.
  change (item_url latest_thread) with (item_url 42575537). rewrite Hth, Hk.
  cbn [update_metadata log send state_set tick requests emitted logger store
       ticks].
  rewrite <- !app_assoc. repeat split.
Qed.

Lemma thread_without_kids_witness :
  emitted (handler (run_env (fun _ => Json None) (fun _ => None)
                      (fun _ => noon)) (trigger "hackernews") idle)
  = emitted idle.
Proof.
  apply (thread_without_kids
           (run_env (fun _ => Json None) (fun _ => None) (fun _ => noon))
           (trigger "hackernews") idle None).
  - left. reflexivity.
  - reflexivity.
  - reflexivity.
Defined.

(** X12: a run asks for the thread, then for its first 30 children, in the
    order of [kids], whatever the requests return: a child past the 30th is
    asked for only if its id is among the first 30. *)
Theorem requests_of_a_run (e : env) (input_data : Input.t) (st : state)
    (thread : Item.t) (kids : list Z) :
  for_hackernews input_data ->
  http_get e (item_url 42575537) = Json (Some thread) ->
  Item.kids thread = Some kids ->
  requests (handler e input_data st)
  = requests st ++ item_url 42575537 :: map item_url (take 30 kids)
  /\ length (requests (handler e input_data st))
     = (length (requests st) + 1 + Nat.min 30 (length kids))%nat.
Proof.
  intros Hsrc Hth Hkids.
  destruct (handler_run e input_data st Hsrc) as (evs & k & R & _).
  unfold comment_ids in R.
  change (item_url latest_thread) with (item_url 42575537) in R.
  rewrite Hth, Hkids in R. cbn [default from_option id] in R.
  split; [exact R|]. rewrite R, length_app. cbn [length].
  rewrite length_map, length_take. lia.
Qed.

Lemma requests_of_a_run_witness :
  requests (handler (demo_env noon) (trigger "hackernews") idle)
  = requests idle
    ++ item_url 42575537 :: map item_url (take 30 [101; 102; 103]%Z)
  /\ length (requests (handler (demo_env noon) (trigger "hackernews") idle))
     = (length (requests idle) + 1 + Nat.min 30 (length [101; 102; 103]%Z))%nat.
Proof.
  apply (requests_of_a_run (demo_env noon) (trigger "hackernews") idle
           (Item.mk (Some latest_thread) None (Some 1735689600%Z) None
              (Some [101; 102; 103]%Z))).
  - left. reflexivity.
  - reflexivity.
  - reflexivity.
Defined.

(** ** Further properties of the step: what a run leaves alone *)

(** X13: a run writes one key of the store.  Every entry under another
    namespace or key is after the run what it was before. *)
Theorem other_keys_untouched (e : env) (input_data : Input.t) (st : state)
    (k : string * string) :
  k <> ("sources", "hackernews") ->
  store (handler e input_data st) !! k = store st !! k.
Proof.
  intros Hk. destruct (for_hackernews_dec input_data) as [Hsrc|Hsrc].
  - destruct (handler_run e input_data st Hsrc) as (evs & n & _ & _ & _ & S).
    rewrite S. now apply lookup_insert_ne.
  - now rewrite handler_skip.
Qed.

Lemma other_keys_untouched_witness :
  store (handler (demo_env noon) (trigger "hackernews") idle)
    !! ("sources", "linkedin")
  = store idle !! ("sources", "linkedin").
Proof.
  apply (other_keys_untouched (demo_env noon) (trigger "hackernews") idle).
  discriminate.
Defined.

(** X15: a thread whose [kids] is the empty list is read like any other:
    the run logs the opening entries with a count of 0 and the closing entries
    with 0 jobs, not the warning "Thread has no comments"; it asks for no
    comment and records zero jobs with the status "error". *)
Theorem thread_with_empty_kids (e : env) (input_data : Input.t) (st : state)
    (thread : Item.t) :
  for_hackernews input_data ->
  http_get e (item_url 42575537) = Json (Some thread) ->
  Item.kids thread = Some [] ->
  requests (handler e input_data st) = requests st ++ [item_url 42575537]
  /\ emitted (handler e input_data st) = emitted st
  /\ logger (handler e input_data st)
     = logger st ++ opening_entries [] ++ closing_entries 0
  /\ store (handler e input_data st)
     = <[("sources", "hackernews") := no_jobs_status (clock e (ticks st))]>
         (store st).
Proof.
  intros Hsrc Hth Hk. rewrite (handler_for_hackernews _ _ _ Hsrc).
  unfold fetch_thread.
  change (item_url latest_thread) with (item_url 42575537). rewrite Hth.
  cbn [mbind option_bind]. rewrite Hk.
  cbn [take foldl thread_done update_metadata log send state_set tick requests
       emitted logger store ticks].
  rewrite <- !app_assoc. repeat split.
Qed.

Lemma thread_with_empty_kids_witness :
  logger (handler (run_env (fun _ => Json (Some (Item.mk None None None None
                                                   (Some []))))
                     (fun _ => None) (fun _ => noon))
            (trigger "hackernews") idle)
  = logger idle ++ opening_entries [] ++ closing_entries 0.
Proof.
  apply (thread_with_empty_kids
           (run_env (fun _ => Json (Some (Item.mk None None None None
                                            (Some []))))
              (fun _ => None) (fun _ => noon))
           (trigger "hackernews") idle
           (Item.mk None None None None (Some []))).
  - left. reflexivity.
  - reflexivity.
  - reflexivity.
Defined.

(** X16: one acceptable comment is enough.  Over a bus that takes every
    event, when one of the first 30 children of the thread comes back with a
    text, not deleted, and the parser accepts it, the run records at least
    one job, the status "success" and no error. *)
Theorem one_posting_is_success (e : env) (input_data : Input.t) (st : state)
    (now : instant) (cid : Z) (ev : Event.t) :
  for_hackernews input_data ->
  (forall ev', emit_raises e ev' = None) ->
  cid ∈ comment_ids e latest_thread ->
  candidate e now cid = Some ev ->
  exists rec,
    store (handler e input_data st) !! ("sources", "hackernews") = Some rec
    /\ (1 <= Status.jobCount rec)%nat
    /\ Status.status rec = "success"
    /\ Status.error rec = None.
Proof.
  intros Hsrc Hbus Hin Hev.
  destruct (handler_run e input_data st Hsrc) as (evs & k & _ & E & _ & S).
  rewrite (handler_for_hackernews _ _ _ Hsrc), update_metadata_emitted in E.
  destruct (fetch_thread_reliable e Hbus now
              (log Info "Fetching from HackerNews Who's Hiring" [] st) 0
              latest_thread) as (evs' & E' & M & _).
  rewrite E' in E. cbn [log emitted] in E. apply app_inv_head in E. subst evs'.
  assert (erase_time ev ∈ map erase_time evs) as Hmem.
  { rewrite M. apply list_elem_of_omap. exists cid. split; [exact Hin|].
    now rewrite Hev. }
  assert (1 <= length evs)%nat as Hlen.
  { destruct evs; [|simpl; lia]. now apply elem_of_nil in Hmem. }
  eexists. rewrite S. split; [apply lookup_insert_eq|].
  cbn [Status.jobCount Status.status Status.error].
  destruct (length evs); [lia|]. cbn. auto with lia.
Qed.

Lemma one_posting_is_success_witness :
  exists rec,
    store (handler (demo_env noon) (trigger "hackernews") idle)
      !! ("sources", "hackernews") = Some rec
    /\ (1 <= Status.jobCount rec)%nat
    /\ Status.status rec = "success"
    /\ Status.error rec = None.
Proof.
  apply (one_posting_is_success (demo_env noon) (trigger "hackernews") idle
           noon 101 (normalize_job (acme_job (Some 101%Z) 1735732800))).
  - left. reflexivity.
  - intros ev'. reflexivity.
  - unfold comment_ids. cbn. apply list_elem_of_here.
  - reflexivity.
Defined.
